(** * The Atomic Host provisioner of libmachine

    A shallow embedding of [libmachine/provision/atomichost.go] and the
    properties of its four operations: the unit-file renderer
    ([GenerateDockerOptions]), the service controller ([Service]), the
    upgrade workflow ([upgrade], reached through [Package]) and the
    provisioning sequence ([Provision]).

    Conventions of the embedding.
    - A Go [string] is a Rocq [string]; a Go slice of strings is a
      [list string] (no operation of this file writes into a slice in
      place, [append] is the only slice operation).
    - A Go [error] value is represented by the text its [Error()] method
      returns, the only thing this file ever inspects of an error; the
      [nil] error is [None].
    - The provisioner is a pointer receiver: its fields are the [self]
      component of the state threaded by the monad [M].
    - Everything the provisioner calls outside this file (the SSH
      transport and the helpers of the package) is an entry of the record
      [Host]; each call is appended to the [calls] log of the state, with
      its arguments, and the callee's answer may depend on everything
      called so far.  Logging ([log.Debugf], [log.Infof]) is local and is
      not modelled. *)

From Stdlib Require Import String Ascii List ZArith Lia Bool DecimalString.
Import ListNotations.
Local Open Scope list_scope.
Local Open Scope string_scope.

Set Implicit Arguments.
Set Warnings "-register-all".

(** ** Values of the language and of its standard library *)

(** Go's [error], by its message. *)
Definition error : Type := string.

Module strings.

(** [strings.Contains(s, substr)]: [substr] occurs somewhere in [s]. *)
Fixpoint Contains (s substr : string) : bool :=
  prefix substr s
  || match s with
     | EmptyString => false
     | String _ s' => Contains s' substr
     end.

(** [strings.Count(s, substr)] for a non-empty [substr]: the number of
    non-overlapping occurrences, scanning from the left.  [skip] is the
    number of characters still covered by the last occurrence found. *)
Fixpoint Count_from (skip : nat) (s substr : string) : nat :=
  match s with
  | EmptyString => 0
  | String _ s' =>
      match skip with
      | S k => Count_from k s' substr
      | O =>
          if prefix substr s
          then S (Count_from (String.length substr - 1) s' substr)
          else Count_from 0 s' substr
      end
  end.

Definition Count (s substr : string) : nat := Count_from 0 s substr.

End strings.

(** ** The option structures of the sibling packages *)

Module auth.

(** [auth.Options], restricted to the fields this file reads. *)
Record Options : Type := {
  CaCertRemotePath : string;
  ServerCertRemotePath : string;
  ServerKeyRemotePath : string
}.

End auth.

Module engine.

(** [engine.Options], restricted to the fields this file reads or
    writes. *)
Record Options : Type := {
  ArbitraryFlags : list string;
  Env : list string;
  InsecureRegistry : list string;
  Labels : list string;
  RegistryMirror : list string;
  StorageDriver : string
}.

Definition set_Labels (o : Options) (l : list string) : Options :=
  {| ArbitraryFlags := ArbitraryFlags o; Env := Env o;
     InsecureRegistry := InsecureRegistry o; Labels := l;
     RegistryMirror := RegistryMirror o; StorageDriver := StorageDriver o |}.

Definition set_StorageDriver (o : Options) (d : string) : Options :=
  {| ArbitraryFlags := ArbitraryFlags o; Env := Env o;
     InsecureRegistry := InsecureRegistry o; Labels := Labels o;
     RegistryMirror := RegistryMirror o; StorageDriver := d |}.

End engine.

Module swarm.

(** [swarm.Options]: the environment list, the one field this file
    touches, and the rest of the cluster-join configuration, which is
    carried along untouched and kept abstract. *)
Record Options (Cluster : Type) : Type := {
  Env : list string;
  Cluster_config : Cluster
}.

Definition set_Env {Cluster} (o : Options Cluster) (e : list string)
  : Options Cluster :=
  {| Env := e; Cluster_config := Cluster_config o |}.

End swarm.

Module serviceaction.

(** Modelled from the spec: the type [serviceaction.ServiceAction], whose
    declaration is in another package.  The spec gives it as the closed
    enumeration {Start, Stop, Restart, ...}; [Other] stands for the
    further members. *)
Inductive ServiceAction : Type :=
| Restart
| Start
| Stop
| Other (n : nat).

End serviceaction.

Module pkgaction.

(** Modelled from the spec: the type [pkgaction.PackageAction], whose
    declaration is in another package.  The spec gives it as the closed
    enumeration {Upgrade, ...}; [Other] stands for the further members. *)
Inductive PackageAction : Type :=
| Upgrade
| Other (n : nat).

Definition eqb (a b : PackageAction) : bool :=
  match a, b with
  | Upgrade, Upgrade => true
  | Other n, Other m => Nat.eqb n m
  | _, _ => false
  end.

End pkgaction.

Module drivers.

(** [drivers.Driver], by the two accessors this file calls. *)
Record Driver : Type := {
  DriverName : string;
  GetMachineName : string
}.

End drivers.

(** ** The fragment of [text/template] the unit file needs

    Field chains ([{{.A.B}}], [{{.}}]), [{{range pipeline}} ... {{end}}]
    over slices, and a call of [printf] with a string literal and one
    field argument.  Text outside the delimiters is copied as it is.
    Trim markers, comments, variables, [else] branches, and string
    literals with escapes or spaces are outside the fragment and are
    rejected by [Parse]. *)

Module template.

(** What reflection shows of the data handed to [Execute]. *)
Inductive value : Type :=
| VString (s : string)
| VInt (z : Z)
| VSlice (l : list value)
| VStruct (fields : list (string * value)).

Inductive Pipe : Type :=
| PField (path : list string)
| PPrintf (format : string) (path : list string).

Inductive Node : Type :=
| NText (s : string)
| NAction (p : Pipe)
| NRange (p : Pipe) (body : list Node).

Definition Template : Type := list Node.

(** *** Lexing: text and the contents of [{{ ... }}] *)

Inductive item : Type :=
| IText (s : string)
| IAction (s : string).

Definition text_item (acc : string) (rest : list item) : list item :=
  match acc with
  | EmptyString => rest
  | _ => IText acc :: rest
  end.

Fixpoint lex (inside : bool) (acc s : string) {struct s}
  : list item + error :=
  match s with
  | EmptyString =>
      if inside then inr "unclosed action" else inl (text_item acc [])
  | String c rest =>
      match inside, c, rest with
      | false, "{"%char, String "{"%char rest' =>
          match lex true "" rest' with
          | inl items => inl (text_item acc items)
          | inr e => inr e
          end
      | true, "}"%char, String "}"%char rest' =>
          match lex false "" rest' with
          | inl items => inl (IAction acc :: items)
          | inr e => inr e
          end
      | _, _, _ => lex inside (acc ++ String c "") rest
      end
  end.

(** *** Parsing one action *)

(** The words of an action, separated by spaces. *)
Definition text_words (acc : string) : list string :=
  match acc with
  | EmptyString => []
  | _ => [acc]
  end.

Fixpoint words_from (acc s : string) {struct s} : list string :=
  match s with
  | EmptyString => text_words acc
  | String c rest =>
      if Ascii.eqb c " "
      then text_words acc ++ words_from "" rest
      else words_from (acc ++ String c "") rest
  end.

Definition words (s : string) : list string := words_from "" s.

(** The components of [A.B.C]; an empty component is an error. *)
Fixpoint chain_from (acc s : string) : option (list string) :=
  match s with
  | EmptyString =>
      match acc with EmptyString => None | _ => Some [acc] end
  | String c rest =>
      if Ascii.eqb c "."
      then match acc, chain_from "" rest with
           | EmptyString, _ => None
           | _, Some l => Some (acc :: l)
           | _, None => None
           end
      else chain_from (acc ++ String c "") rest
  end.

(** [.] is the empty chain, [.A.B] the chain [A; B]. *)
Definition field (w : string) : option (list string) :=
  match w with
  | String "."%char EmptyString => Some []
  | String "."%char rest => chain_from "" rest
  | _ => None
  end.

Definition dq : ascii := ascii_of_nat 34.

Definition no_backslash (s : string) : bool :=
  negb (strings.Contains s (String (ascii_of_nat 92) "")).

(** A string literal between double quotes. *)
Definition literal (w : string) : option string :=
  match w with
  | String c rest =>
      let n := String.length rest in
      if Ascii.eqb c dq
         && (1 <=? n)%nat
         && (String.substring (n - 1) 1 rest =? String dq "")
         && no_backslash rest
         && negb (strings.Contains (String.substring 0 (n - 1) rest)
                    (String dq ""))
      then Some (String.substring 0 (n - 1) rest)
      else None
  | EmptyString => None
  end.

Definition pipeline (ws : list string) : Pipe + error :=
  match ws with
  | [w] =>
      match field w with
      | Some path => inl (PField path)
      | None => inr ("unexpected " ++ w ++ " in command")
      end
  | ["printf"; lit; arg] =>
      match literal lit, field arg with
      | Some format, Some path => inl (PPrintf format path)
      | _, _ => inr "unexpected operand in printf"
      end
  | [] => inr "missing value for command"
  | w :: _ => inr ("function " ++ w ++ " not defined")
  end.

Inductive command : Type :=
| CPipe (p : Pipe)
| CRange (p : Pipe)
| CEnd.

Definition action (s : string) : command + error :=
  match words s with
  | ["end"] => inl CEnd
  | "range" :: ws =>
      match pipeline ws with
      | inl p => inl (CRange p)
      | inr e => inr e
      end
  | ws =>
      match pipeline ws with
      | inl p => inl (CPipe p)
      | inr e => inr e
      end
  end.

(** *** Building the tree: [stack] holds the enclosing [range]s, each
    with the nodes that precede it at its level; [cur] is the current
    level, most recent node first. *)
Fixpoint tree (items : list item) (cur : list Node)
  (stack : list (Pipe * list Node)) : Template + error :=
  match items with
  | [] =>
      match stack with
      | [] => inl (rev cur)
      | _ :: _ => inr "unexpected EOF"
      end
  | IText s :: rest => tree rest (NText s :: cur) stack
  | IAction a :: rest =>
      match action a with
      | inr e => inr e
      | inl (CPipe p) => tree rest (NAction p :: cur) stack
      | inl (CRange p) => tree rest [] ((p, cur) :: stack)
      | inl CEnd =>
          match stack with
          | [] => inr "unexpected {{end}}"
          | (p, outer) :: stack' =>
              tree rest (NRange p (rev cur) :: outer) stack'
          end
      end
  end.

(** [template.New(name).Parse(text)]. *)
Definition Parse (name text : string) : Template + error :=
  match lex false "" text with
  | inl items =>
      match tree items [] [] with
      | inl t => inl t
      | inr e => inr ("template: " ++ name ++ ": " ++ e)
      end
  | inr e => inr ("template: " ++ name ++ ": " ++ e)
  end.

(** *** Execution *)

Fixpoint lookup (f : string) (fields : list (string * value))
  : option value :=
  match fields with
  | [] => None
  | (g, v) :: rest => if (f =? g)%string then Some v else lookup f rest
  end.

Fixpoint eval_field (path : list string) (dot : value) : value + error :=
  match path with
  | [] => inl dot
  | f :: rest =>
      match dot with
      | VStruct fields =>
          match lookup f fields with
          | Some v => eval_field rest v
          | None => inr ("can't evaluate field " ++ f)
          end
      | _ => inr ("can't evaluate field " ++ f)
      end
  end.

Definition decimal (z : Z) : string := NilZero.string_of_int (Z.to_int z).

(** How a value is printed by an action: [fmt.Fprint]. *)
Fixpoint print (v : value) : string :=
  match v with
  | VString s => s
  | VInt z => decimal z
  | VSlice l =>
      "[" ++ (fix elems (l : list value) : string :=
                match l with
                | [] => ""
                | x :: r =>
                    match r with
                    | [] => print x
                    | _ :: _ => print x ++ " " ++ elems r
                    end
                end) l ++ "]"
  | VStruct fields =>
      "{" ++ (fix elems (l : list (string * value)) : string :=
                match l with
                | [] => ""
                | (_, x) :: r =>
                    match r with
                    | [] => print x
                    | _ :: _ => print x ++ " " ++ elems r
                    end
                end) fields ++ "}"
  end.

Section Exec.

(** [fmt.Sprintf] with one argument, from the standard library. *)
Variable Sprintf : string -> value -> string.

Definition eval (p : Pipe) (dot : value) : value + error :=
  match p with
  | PField path => eval_field path dot
  | PPrintf format path =>
      match eval_field path dot with
      | inl v => inl (VString (Sprintf format v))
      | inr e => inr e
      end
  end.

(** One node, writing after [wr]; on an error what was written so far
    stays written. *)
Fixpoint walk (n : Node) (dot : value) (wr : string) {struct n}
  : string * option error :=
  match n with
  | NText s => (wr ++ s, None)
  | NAction p =>
      match eval p dot with
      | inl v => (wr ++ print v, None)
      | inr e => (wr, Some e)
      end
  | NRange p body =>
      match eval p dot with
      | inl (VSlice vs) =>
          (fix each (vs : list value) (wr : string) {struct vs}
             : string * option error :=
             match vs with
             | [] => (wr, None)
             | v :: vs' =>
                 match
                   (fix nodes (ns : list Node) (wr : string) {struct ns}
                      : string * option error :=
                      match ns with
                      | [] => (wr, None)
                      | n' :: ns' =>
                          match walk n' v wr with
                          | (wr', None) => nodes ns' wr'
                          | r => r
                          end
                      end) body wr
                 with
                 | (wr', None) => each vs' wr'
                 | r => r
                 end
             end) vs wr
      | inl _ => (wr, Some "range can't iterate over value")
      | inr e => (wr, Some e)
      end
  end.

Fixpoint walk_nodes (ns : list Node) (dot : value) (wr : string)
  : string * option error :=
  match ns with
  | [] => (wr, None)
  | n :: ns' =>
      match walk n dot wr with
      | (wr', None) => walk_nodes ns' dot wr'
      | r => r
      end
  end.

Fixpoint walk_each (body : list Node) (vs : list value) (wr : string)
  : string * option error :=
  match vs with
  | [] => (wr, None)
  | v :: vs' =>
      match walk_nodes body v wr with
      | (wr', None) => walk_each body vs' wr'
      | r => r
      end
  end.

(** [t.Execute(&buf, data)] on an empty buffer: the text written and
    the error. *)
Definition Execute (t : Template) (data : value) : string * option error :=
  walk_nodes t data "".

End Exec.

End template.

(** ** The data of the provisioner *)

(** [EngineConfigContext], as the composite literal of
    [GenerateDockerOptions] fills it. *)
Record EngineConfigContext : Type := {
  ctx_DockerPort : Z;
  ctx_AuthOptions : auth.Options;
  ctx_EngineOptions : engine.Options
}.

(** [DockerOptions]: the rendered unit file and the remote path it is to be
    written to. *)
Record DockerOptions : Type := {
  opt_EngineOptions : string;
  opt_EngineOptionsPath : string
}.

(** The two entry points of [text/template] that [GenerateDockerOptions]
    calls: [template.New(name).Parse(text)] and [t.Execute(&buf, data)] on
    a fresh buffer, the latter giving the text written and the error. *)
Class TextTemplate : Type := {
  Tmpl : Type;
  Parse : string -> string -> Tmpl + error;
  Execute : Tmpl -> EngineConfigContext -> string * option error
}.

(** The template of the unit file, character for character. *)
Definition engineConfigTmpl : string :=
"[Unit]
Description=Docker Application Container Engine
Documentation=http://docs.docker.com
After=network.target

[Service]
ExecStart=/usr/bin/docker -d -H tcp://0.0.0.0:{{.DockerPort}} -H unix:///var/run/docker.sock --storage-driver {{.EngineOptions.StorageDriver}} --tlsverify --tlscacert {{.AuthOptions.CaCertRemotePath}} --tlscert {{.AuthOptions.ServerCertRemotePath}} --tlskey {{.AuthOptions.ServerKeyRemotePath}} {{ range .EngineOptions.Labels }}--label {{.}} {{ end }}{{ range .EngineOptions.InsecureRegistry }}--insecure-registry {{.}} {{ end }}{{ range .EngineOptions.RegistryMirror }}--registry-mirror {{.}} {{ end }}{{ range .EngineOptions.ArbitraryFlags }}--{{.}} {{ end }}
MountFlags=slave
LimitNOFILE=1048576
LimitNPROC=1048576
LimitCORE=infinity
Environment={{range .EngineOptions.Env}}{{ printf " ++ String template.dq "%q" ++ String template.dq " . }} {{end}}

[Install]
WantedBy=multi-user.target
".

Section AtomicHost.

(** The part of [swarm.Options] this file never looks at. *)
Variable Cluster : Type.

(** [AtomicHostProvisioner], through its embedded [SystemdProvisioner],
    restricted to the fields this file reads or writes. *)
Record AtomicHostProvisioner : Type := {
  Driver : drivers.Driver;
  DaemonOptionsFile : string;
  AuthOptions : auth.Options;
  EngineOptions : engine.Options;
  SwarmOptions : swarm.Options Cluster
}.

Definition set_AuthOptions (p : AtomicHostProvisioner) (a : auth.Options) :=
  {| Driver := Driver p; DaemonOptionsFile := DaemonOptionsFile p;
     AuthOptions := a; EngineOptions := EngineOptions p;
     SwarmOptions := SwarmOptions p |}.

Definition set_EngineOptions (p : AtomicHostProvisioner) (e : engine.Options) :=
  {| Driver := Driver p; DaemonOptionsFile := DaemonOptionsFile p;
     AuthOptions := AuthOptions p; EngineOptions := e;
     SwarmOptions := SwarmOptions p |}.

Definition set_SwarmOptions (p : AtomicHostProvisioner)
  (s : swarm.Options Cluster) :=
  {| Driver := Driver p; DaemonOptionsFile := DaemonOptionsFile p;
     AuthOptions := AuthOptions p; EngineOptions := EngineOptions p;
     SwarmOptions := s |}.

(** *** Calls that leave this file

    [p] is the provisioner as it is when the call is made: the helpers
    receive the pointer. *)
Inductive Call : Type :=
| SSHCommand_call (args : string)
| SetHostname_call (p : AtomicHostProvisioner) (hostname : string)
| makeDockerOptionsDir_call (p : AtomicHostProvisioner)
| setRemoteAuthOptions_call (p : AtomicHostProvisioner)
| ConfigureAuth_call (p : AtomicHostProvisioner)
| configureSwarm_call (p : AtomicHostProvisioner)
    (swarmOptions : swarm.Options Cluster) (authOptions : auth.Options).

(** What answers those calls.  Each answer is a function of the calls
    made before and of the arguments; the helpers that receive the
    provisioner may also change it. *)
Record Host : Type := {
  run_SSHCommand : list Call -> string -> string * option error;
  run_SetHostname :
    list Call -> AtomicHostProvisioner -> string ->
    AtomicHostProvisioner * option error;
  run_makeDockerOptionsDir :
    list Call -> AtomicHostProvisioner ->
    AtomicHostProvisioner * option error;
  run_setRemoteAuthOptions :
    list Call -> AtomicHostProvisioner ->
    AtomicHostProvisioner * auth.Options;
  run_ConfigureAuth :
    list Call -> AtomicHostProvisioner ->
    AtomicHostProvisioner * option error;
  run_configureSwarm :
    list Call -> AtomicHostProvisioner -> swarm.Options Cluster ->
    auth.Options -> AtomicHostProvisioner * option error;
  (** [action.String()] of the package [serviceaction]. *)
  ServiceAction_String : serviceaction.ServiceAction -> string
}.

Record State : Type := {
  self : AtomicHostProvisioner;
  calls : list Call
}.

(** *** The monad of the methods *)

Definition M (A : Type) : Type := State -> A * State.

Definition ret {A} (a : A) : M A := fun st => (a, st).

Definition bind {A B} (m : M A) (k : A -> M B) : M B :=
  fun st => let r := m st in k (fst r) (snd r).

Definition get_self : M AtomicHostProvisioner := fun st => (self st, st).

Definition put_self (p : AtomicHostProvisioner) : M unit :=
  fun st => (tt, {| self := p; calls := calls st |}).

(** The calls a computation makes from [st] on. *)
Definition issued {A} (m : M A) (st : State) : list Call :=
  skipn (List.length (calls st)) (calls (snd (m st))).

End AtomicHost.

Arguments ret {Cluster A} a.
Arguments get_self {Cluster}.

Notation "x <- m ;; k" := (bind m (fun x => k))
  (at level 61, m at next level, right associativity).
Notation "m ;;; k" := (bind m (fun _ => k))
  (at level 61, right associativity).
(** [if err := m; err != nil { return err }] followed by [k]. *)
Notation "'check' m ;; k" :=
  (bind m (fun err => match err with Some e => ret (Some e) | None => k end))
  (at level 61, m at next level, right associativity).

Section Methods.

Context {Cluster : Type} {T : TextTemplate}.
Variable host : Host Cluster.

Local Abbreviation Op := (M Cluster).

(** [provisioner.SSHCommand(args)]. *)
Definition SSHCommand (args : string) : Op (string * option error) :=
  fun st =>
    (run_SSHCommand host (calls st) args,
     {| self := self st; calls := (calls st ++ [SSHCommand_call _ args])%list |}).

Definition SetHostname (hostname : string) : Op (option error) :=
  fun st =>
    let r := run_SetHostname host (calls st) (self st) hostname in
    (snd r,
     {| self := fst r;
        calls := (calls st ++ [SetHostname_call (self st) hostname])%list |}).

Definition makeDockerOptionsDir : Op (option error) :=
  fun st =>
    let r := run_makeDockerOptionsDir host (calls st) (self st) in
    (snd r,
     {| self := fst r;
        calls := (calls st ++ [makeDockerOptionsDir_call (self st)])%list |}).

Definition setRemoteAuthOptions : Op auth.Options :=
  fun st =>
    let r := run_setRemoteAuthOptions host (calls st) (self st) in
    (snd r,
     {| self := fst r;
        calls := (calls st ++ [setRemoteAuthOptions_call (self st)])%list |}).

Definition ConfigureAuth : Op (option error) :=
  fun st =>
    let r := run_ConfigureAuth host (calls st) (self st) in
    (snd r,
     {| self := fst r;
        calls := (calls st ++ [ConfigureAuth_call (self st)])%list |}).

Definition configureSwarm (swarmOptions : swarm.Options Cluster)
  (authOptions : auth.Options) : Op (option error) :=
  fun st =>
    let r := run_configureSwarm host (calls st) (self st)
               swarmOptions authOptions in
    (snd r,
     {| self := fst r;
        calls := (calls st
                  ++ [configureSwarm_call (self st) swarmOptions authOptions])%list |}).

(** *** [GenerateDockerOptions] *)

Definition GenerateDockerOptions (dockerPort : Z)
  : Op (option DockerOptions * option error) :=
  p <- get_self ;;
  let driverNameLabel := "provider=" ++ drivers.DriverName (Driver p) in
  put_self
    (set_EngineOptions p
       (engine.set_Labels (EngineOptions p)
          (engine.Labels (EngineOptions p) ++ [driverNameLabel])%list)) ;;;
  match Parse "engineConfig" engineConfigTmpl with
  | inr err => ret (None, Some err)
  | inl t =>
      p <- get_self ;;
      let engineConfigContext :=
        {| ctx_DockerPort := dockerPort;
           ctx_AuthOptions := AuthOptions p;
           ctx_EngineOptions := EngineOptions p |} in
      let engineCfg := fst (Execute t engineConfigContext) in
      ret (Some {| opt_EngineOptions := engineCfg;
                   opt_EngineOptionsPath := DaemonOptionsFile p |},
           None)
  end.

(** *** [Service] *)

Definition Service (name : string) (action : serviceaction.ServiceAction)
  : Op (option error) :=
  let reloadDaemon :=
    match action with
    | serviceaction.Start | serviceaction.Restart => true
    | _ => false
    end in
  check (if reloadDaemon
         then r <- SSHCommand "sudo systemctl daemon-reload" ;; ret (snd r)
         else ret None) ;;
  let command :=
    "sudo systemctl " ++ ServiceAction_String host action ++ " " ++ name in
  check (r <- SSHCommand command ;; ret (snd r)) ;;
  ret None.

(** *** [upgrade] and [Package] *)

Definition upgrade : Op (option error) :=
  r <- SSHCommand "sudo atomic host upgrade" ;;
  let upgradeCommandOutput := fst r in
  match snd r with
  | Some err =>
      if err =? "exit status 77" then ret None else ret (Some err)
  | None =>
      if strings.Contains upgradeCommandOutput "No upgrade available."
      then ret None
      else SSHCommand "sudo reboot" ;;; ret None
  end.

Definition Package (name : string) (action : pkgaction.PackageAction)
  : Op (option error) :=
  if (name =? "docker") && pkgaction.eqb action pkgaction.Upgrade
  then upgrade
  else ret None.

(** *** [Provision] *)

Definition Provision (swarmOptions : swarm.Options Cluster)
  (authOptions : auth.Options) (engineOptions : engine.Options)
  : Op (option error) :=
  p <- get_self ;; put_self (set_SwarmOptions p swarmOptions) ;;;
  p <- get_self ;; put_self (set_AuthOptions p authOptions) ;;;
  p <- get_self ;; put_self (set_EngineOptions p engineOptions) ;;;
  let swarmOptions := swarm.set_Env swarmOptions (engine.Env engineOptions) in
  check (p <- get_self ;;
         if engine.StorageDriver (EngineOptions p) =? ""
         then put_self
                (set_EngineOptions p
                   (engine.set_StorageDriver (EngineOptions p) "overlay")) ;;;
              ret None
         else if negb (engine.StorageDriver (EngineOptions p) =? "overlay")
         then ret (Some ("Unsupported storage driver: "
                         ++ engine.StorageDriver (EngineOptions p)))
         else ret None) ;;
  p <- get_self ;;
  check SetHostname (drivers.GetMachineName (Driver p)) ;;
  check makeDockerOptionsDir ;;
  a <- setRemoteAuthOptions ;;
  p <- get_self ;; put_self (set_AuthOptions p a) ;;;
  check ConfigureAuth ;;
  p <- get_self ;;
  check configureSwarm swarmOptions (AuthOptions p) ;;
  ret None.

End Methods.

(** ** [text/template] on the data of this file *)

Section GoTemplate.

Definition reflect_strings (l : list string) : template.value :=
  template.VSlice (map template.VString l).

Definition reflect_auth (a : auth.Options) : template.value :=
  template.VStruct [("CaCertRemotePath", template.VString (auth.CaCertRemotePath a));
           ("ServerCertRemotePath", template.VString (auth.ServerCertRemotePath a));
           ("ServerKeyRemotePath", template.VString (auth.ServerKeyRemotePath a))].

Definition reflect_engine (e : engine.Options) : template.value :=
  template.VStruct [("ArbitraryFlags", reflect_strings (engine.ArbitraryFlags e));
           ("Env", reflect_strings (engine.Env e));
           ("InsecureRegistry", reflect_strings (engine.InsecureRegistry e));
           ("Labels", reflect_strings (engine.Labels e));
           ("RegistryMirror", reflect_strings (engine.RegistryMirror e));
           ("StorageDriver", template.VString (engine.StorageDriver e))].

Definition reflect_context (c : EngineConfigContext) : template.value :=
  template.VStruct [("DockerPort", template.VInt (ctx_DockerPort c));
           ("AuthOptions", reflect_auth (ctx_AuthOptions c));
           ("EngineOptions", reflect_engine (ctx_EngineOptions c))].

(** The library on the data as [reflect] shows it, for any
    [fmt.Sprintf]. *)
Definition TemplateOn (Sprintf : string -> template.value -> string)
  (reflect : EngineConfigContext -> template.value) : TextTemplate :=
  {| Tmpl := template.Template;
     Parse := template.Parse;
     Execute := fun t c => template.Execute Sprintf t (reflect c) |}.

(** The library on [EngineConfigContext] as it is. *)
Definition GoTemplate (Sprintf : string -> template.value -> string)
  : TextTemplate :=
  TemplateOn Sprintf reflect_context.

End GoTemplate.

(** ** Reference rendering of the unit file

    What the spec says the unit file is: the fixed lines of the unit, with
    the listen port, the storage driver and the three certificate paths in
    the start command, followed by one flag per label, per insecure
    registry, per registry mirror and per arbitrary flag, in the order of
    the lists, and an environment line with each variable quoted. *)

Section UnitFile.

Variable Sprintf : string -> template.value -> string.

(** One flag per entry of [l], each followed by a space. *)
Definition flags (flag : string) (l : list string) : list string :=
  map (fun x => flag ++ x ++ " ") l.

Definition quoted (l : list string) : list string :=
  map (fun x => Sprintf "%q" (template.VString x) ++ " ") l.

Definition unit_file_head (port : Z) (a : auth.Options) (driver : string)
  : string :=
  "[Unit]
Description=Docker Application Container Engine
Documentation=http://docs.docker.com
After=network.target

[Service]
ExecStart=/usr/bin/docker -d -H tcp://0.0.0.0:" ++ template.decimal port
  ++ " -H unix:///var/run/docker.sock --storage-driver " ++ driver
  ++ " --tlsverify --tlscacert " ++ auth.CaCertRemotePath a
  ++ " --tlscert " ++ auth.ServerCertRemotePath a
  ++ " --tlskey " ++ auth.ServerKeyRemotePath a ++ " ".

Definition unit_file_tail (env : list string) : string :=
  "
MountFlags=slave
LimitNOFILE=1048576
LimitNPROC=1048576
LimitCORE=infinity
Environment=" ++ String.concat "" (quoted env) ++ "

[Install]
WantedBy=multi-user.target
".

Definition unit_file_spec (port : Z) (a : auth.Options) (e : engine.Options)
  : string :=
  unit_file_head port a (engine.StorageDriver e)
  ++ String.concat "" (flags "--label " (engine.Labels e))
  ++ String.concat "" (flags "--insecure-registry " (engine.InsecureRegistry e))
  ++ String.concat "" (flags "--registry-mirror " (engine.RegistryMirror e))
  ++ String.concat "" (flags "--" (engine.ArbitraryFlags e))
  ++ unit_file_tail (engine.Env e).

End UnitFile.

(** ** A sample machine

    Concrete data on which the operations are run: a provisioner, a few
    option values, and hosts whose SSH transport answers by the command
    alone. *)

Module sample.

Definition driver : drivers.Driver :=
  {| drivers.DriverName := "virtualbox"; drivers.GetMachineName := "dev" |}.

Definition certs : auth.Options :=
  {| auth.CaCertRemotePath := "/etc/docker/ca.pem";
     auth.ServerCertRemotePath := "/etc/docker/server.pem";
     auth.ServerKeyRemotePath := "/etc/docker/server-key.pem" |}.

Definition bare (driver : string) : engine.Options :=
  {| engine.ArbitraryFlags := []; engine.Env := [];
     engine.InsecureRegistry := []; engine.Labels := [];
     engine.RegistryMirror := []; engine.StorageDriver := driver |}.

Definition full : engine.Options :=
  {| engine.ArbitraryFlags := ["debug"; "icc=false"];
     engine.Env := ["HTTP_PROXY=http://proxy:3128"; "TMPDIR=/var/tmp"];
     engine.InsecureRegistry := ["registry.local:5000"];
     engine.Labels := ["tier=web"; "zone=a"];
     engine.RegistryMirror := ["https://mirror.local"];
     engine.StorageDriver := "overlay" |}.

Definition cluster : swarm.Options unit :=
  {| swarm.Env := ["SWARM=1"]; swarm.Cluster_config := tt |}.

Definition machine (e : engine.Options) : AtomicHostProvisioner unit :=
  {| Driver := driver;
     DaemonOptionsFile := "/etc/systemd/system/docker.service";
     AuthOptions := certs; EngineOptions := e; SwarmOptions := cluster |}.

Definition fresh (e : engine.Options) : State unit :=
  {| self := machine e; calls := [] |}.

Definition action_String (a : serviceaction.ServiceAction) : string :=
  match a with
  | serviceaction.Restart => "restart"
  | serviceaction.Start => "start"
  | serviceaction.Stop => "stop"
  | serviceaction.Other _ => ""
  end.

(** A host with the given transport; the helpers of the package succeed
    and leave the provisioner as it is. *)
Definition host (ssh : string -> string * option error) : Host unit :=
  {| run_SSHCommand := fun _ args => ssh args;
     run_SetHostname := fun _ p _ => (p, None);
     run_makeDockerOptionsDir := fun _ p => (p, None);
     run_setRemoteAuthOptions := fun _ p => (p, AuthOptions p);
     run_ConfigureAuth := fun _ p => (p, None);
     run_configureSwarm := fun _ p _ _ => (p, None);
     ServiceAction_String := action_String |}.

(** Every command succeeds with the output [out]. *)
Definition answers (out : string) (args : string) : string * option error :=
  (out, None).

(** The command [cmd] fails with [err]; every other command succeeds. *)
Definition fails_on (cmd : string) (err : error) (args : string)
  : string * option error :=
  if args =? cmd then ("", Some err) else ("", None).

(** The upgrade succeeds with the output [out]; the reboot cuts the
    connection. *)
Definition upgraded (out : string) (args : string) : string * option error :=
  if args =? "sudo reboot" then ("", Some "EOF") else (out, None).

(** [fmt.Sprintf("%q", s)] on strings without characters to escape. *)
Definition Sprintf (format : string) (v : template.value) : string :=
  match v with
  | template.VString s => String template.dq (s ++ String template.dq "")
  | _ => ""
  end.

(** The data as reflection would show it if the context had no
    [EngineOptions.Env]: the execution of the template stops at the
    environment line. *)
Definition reflect_without_env (c : EngineConfigContext) : template.value :=
  template.VStruct
    [("DockerPort", template.VInt (ctx_DockerPort c));
     ("AuthOptions", reflect_auth (ctx_AuthOptions c));
     ("EngineOptions",
      template.VStruct
        [("ArbitraryFlags", reflect_strings [] );
         ("InsecureRegistry", reflect_strings []);
         ("Labels", reflect_strings (engine.Labels (ctx_EngineOptions c)));
         ("RegistryMirror", reflect_strings []);
         ("StorageDriver",
          template.VString (engine.StorageDriver (ctx_EngineOptions c)))])].

End sample.

(** ** Reading the log of calls *)

Section Log.

Context {Cluster : Type}.

(** The call is the SSH command [cmd]. *)
Definition is_command (cmd : string) (c : Call Cluster) : bool :=
  match c with
  | SSHCommand_call _ args => args =? cmd
  | _ => false
  end.

(** How many times the SSH command [cmd] occurs in a log. *)
Definition count_command (cmd : string) (l : list (Call Cluster)) : nat :=
  List.length (filter (is_command cmd) l).

Definition ssh (cmd : string) : Call Cluster := SSHCommand_call Cluster cmd.

Variable host : Host Cluster.

(** The answer of the transport to the upgrade command issued from [st],
    and the state once it has been issued. *)
Definition upgrade_answer (st : State Cluster) : string * option error :=
  run_SSHCommand host (calls st) "sudo atomic host upgrade".

Definition after_upgrade (st : State Cluster) : State Cluster :=
  {| self := self st;
     calls := (calls st ++ [ssh "sudo atomic host upgrade"])%list |}.

(** The error of the daemon-reload command issued from [st]. *)
Definition reload_error (st : State Cluster) : option error :=
  snd (run_SSHCommand host (calls st) "sudo systemctl daemon-reload").

(** The action command of [Service name action]. *)
Definition action_command (name : string)
  (action : serviceaction.ServiceAction) : string :=
  "sudo systemctl " ++ ServiceAction_String host action ++ " " ++ name.

(** The actions before which the daemon is reloaded. *)
Definition reloads (action : serviceaction.ServiceAction) : bool :=
  match action with
  | serviceaction.Start | serviceaction.Restart => true
  | _ => false
  end.

End Log.

Unset Implicit Arguments.

(** ** The steps of [Provision]

    [Provision] from the hostname step on, as the function is written
    after the resolution of the storage driver; [swarmOptions] is the
    local copy, its environment already overwritten. *)

Section Steps.

Context {Cluster : Type}.
Variable host : Host Cluster.

Definition Provision_steps (swarmOptions : swarm.Options Cluster)
  : M Cluster (option error) :=
  p <- get_self ;;
  check SetHostname host (drivers.GetMachineName (Driver p)) ;;
  check makeDockerOptionsDir host ;;
  a <- setRemoteAuthOptions host ;;
  p <- get_self ;; put_self (set_AuthOptions p a) ;;;
  check ConfigureAuth host ;;
  p <- get_self ;;
  check configureSwarm host swarmOptions (AuthOptions p) ;;
  ret None.

(** The provisioner once the three arguments of [Provision] are stored. *)
Definition stored (p : AtomicHostProvisioner Cluster)
  (swarmOptions : swarm.Options Cluster) (authOptions : auth.Options)
  (engineOptions : engine.Options) : AtomicHostProvisioner Cluster :=
  {| Driver := Driver p; DaemonOptionsFile := DaemonOptionsFile p;
     AuthOptions := authOptions; EngineOptions := engineOptions;
     SwarmOptions := swarmOptions |}.

End Steps.

(** ** The parsed template and repeated rendering *)

(** The tree [Parse] builds from [engineConfigTmpl]. *)
Definition engineConfig : template.Template :=
  Eval vm_compute in
    match template.Parse "engineConfig" engineConfigTmpl with
    | inl t => t
    | inr _ => []
    end.

Section Rendering.

Context {Cluster : Type} {T : TextTemplate}.

(** The label [GenerateDockerOptions] derives from the driver. *)
Definition provider_label (p : AtomicHostProvisioner Cluster) : string :=
  "provider=" ++ drivers.DriverName (Driver p).

(** The provisioner once [GenerateDockerOptions] has appended its label. *)
Definition labelled (p : AtomicHostProvisioner Cluster)
  : AtomicHostProvisioner Cluster :=
  set_EngineOptions p
    (engine.set_Labels (EngineOptions p)
       (engine.Labels (EngineOptions p) ++ [provider_label p])%list).

(** The data [GenerateDockerOptions] hands to [Execute]. *)
Definition context_of (dockerPort : Z) (p : AtomicHostProvisioner Cluster)
  : EngineConfigContext :=
  {| ctx_DockerPort := dockerPort;
     ctx_AuthOptions := AuthOptions p;
     ctx_EngineOptions := EngineOptions p |}.

(** The unit file a call of [GenerateDockerOptions] returns, the empty
    text when it returns none. *)
Definition rendered (dockerPort : Z) (st : State Cluster) : string :=
  match fst (fst (GenerateDockerOptions dockerPort st)) with
  | Some o => opt_EngineOptions o
  | None => ""
  end.

(** The state after [n] consecutive calls of [GenerateDockerOptions], the
    call number [i] (from 0) with the port [dockerPort i]. *)
Fixpoint after_calls (dockerPort : nat -> Z) (n : nat) (st : State Cluster)
  : State Cluster :=
  match n with
  | O => st
  | S k =>
      snd (GenerateDockerOptions (dockerPort k) (after_calls dockerPort k st))
  end.

End Rendering.

(** ** The count of label flags, read off the text *)

(** The unit file holds as many "--label " as the provisioner has stored
    labels when [GenerateDockerOptions] is called. *)
Definition one_label_flag_per_stored_label
  (Sprintf : string -> template.value -> string) (dockerPort : Z)
  (st : State unit) : Prop :=
  strings.Count (rendered (T := GoTemplate Sprintf) dockerPort st) "--label "
  = List.length (engine.Labels (EngineOptions (self st))).

(** ** Counting flags in the text *)

(** A flag as it stands in the text: a word followed by a space. *)
Definition flag_word (w : string) : Prop :=
  exists body, w = body ++ " " /\ strings.Contains body " " = false.

(** An entry is free of the flag [w] when [w] does not occur in the entry
    followed by the space that ends its segment. *)
Definition free_of (w v : string) : Prop :=
  strings.Contains (v ++ " ") w = false.

(** The entries of a unit file are all free of [w]; an arbitrary flag is
    taken with the two dashes the template puts before it, a variable of
    the environment as it is quoted. *)
Record entries_free_of (Sprintf : string -> template.value -> string)
  (w : string) (dockerPort : Z) (a : auth.Options) (e : engine.Options)
  : Prop := {
  free_port : free_of w (template.decimal dockerPort);
  free_driver : free_of w (engine.StorageDriver e);
  free_ca : free_of w (auth.CaCertRemotePath a);
  free_cert : free_of w (auth.ServerCertRemotePath a);
  free_key : free_of w (auth.ServerKeyRemotePath a);
  free_labels : Forall (free_of w) (engine.Labels e);
  free_registries : Forall (free_of w) (engine.InsecureRegistry e);
  free_mirrors : Forall (free_of w) (engine.RegistryMirror e);
  free_flags : Forall (fun f => free_of w ("--" ++ f)) (engine.ArbitraryFlags e);
  free_env :
    Forall (fun x => free_of w (Sprintf "%q" (template.VString x)))
      (engine.Env e)
}.

(** The count of [w] over a fixed piece of text [lit], from the left with
    [skip] characters still covered by an occurrence: the number of
    occurrences and the characters still covered at the end of the piece;
    [None] when the piece ends inside a possible occurrence, which what
    follows would decide. *)
Fixpoint scan (skip : nat) (lit w : string) : option (nat * nat) :=
  match lit with
  | EmptyString => Some (0, skip)
  | String _ lit' =>
      match skip with
      | S k => scan k lit' w
      | O =>
          if prefix w lit
          then match scan (String.length w - 1) lit' w with
               | Some (n, k) => Some (S n, k)
               | None => None
               end
          else if prefix lit w then None
          else scan 0 lit' w
      end
  end.

(** ** The calls of a provisioning run, by step *)

Inductive Step : Type :=
| HostnameStep
| OptionsDirStep
| RemoteAuthStep
| AuthStep
| SwarmStep
| CommandStep.

Section Steps_of_calls.

Context {Cluster : Type}.

Definition step_of (c : Call Cluster) : Step :=
  match c with
  | SSHCommand_call _ _ => CommandStep
  | SetHostname_call _ _ => HostnameStep
  | makeDockerOptionsDir_call _ => OptionsDirStep
  | setRemoteAuthOptions_call _ => RemoteAuthStep
  | ConfigureAuth_call _ => AuthStep
  | configureSwarm_call _ _ _ => SwarmStep
  end.

(** The steps of [Provision] in the order of its text. *)
Definition Provision_order : list Step :=
  [HostnameStep; OptionsDirStep; RemoteAuthStep; AuthStep; SwarmStep].

Variable host : Host Cluster.

(** The error with which [host] answers the call [c] made after the calls
    [before]; [setRemoteAuthOptions] returns no error. *)
Definition answer_of (before : list (Call Cluster)) (c : Call Cluster)
  : option error :=
  match c with
  | SSHCommand_call _ args => snd (run_SSHCommand host before args)
  | SetHostname_call p hostname => snd (run_SetHostname host before p hostname)
  | makeDockerOptionsDir_call p => snd (run_makeDockerOptionsDir host before p)
  | setRemoteAuthOptions_call _ => None
  | ConfigureAuth_call p => snd (run_ConfigureAuth host before p)
  | configureSwarm_call p s a => snd (run_configureSwarm host before p s a)
  end.

(** The helpers of the package leave the engine options of the provisioner
    as they find them. *)
Definition keeps_engine_options : Prop :=
  (forall l p n,
      EngineOptions (fst (run_SetHostname host l p n)) = EngineOptions p)
  /\ (forall l p,
         EngineOptions (fst (run_makeDockerOptionsDir host l p))
         = EngineOptions p)
  /\ (forall l p,
         EngineOptions (fst (run_setRemoteAuthOptions host l p))
         = EngineOptions p)
  /\ (forall l p,
         EngineOptions (fst (run_ConfigureAuth host l p)) = EngineOptions p)
  /\ (forall l p s a,
         EngineOptions (fst (run_configureSwarm host l p s a))
         = EngineOptions p).

(** The state in which [Provision] enters its steps when the storage
    driver is empty or "overlay": the three arguments stored, an empty
    driver replaced by "overlay". *)
Definition Provision_entry (st : State Cluster)
  (swarmOptions : swarm.Options Cluster) (authOptions : auth.Options)
  (engineOptions : engine.Options) : State Cluster :=
  {| self :=
       set_EngineOptions
         (stored (self st) swarmOptions authOptions engineOptions)
         (if engine.StorageDriver engineOptions =? ""
          then engine.set_StorageDriver engineOptions "overlay"
          else engineOptions);
     calls := calls st |}.

(** The upgrade command, issued after the calls [before], reports that
    there is nothing to upgrade: by its exit status or in its output. *)
Definition nothing_to_upgrade (before : list (Call Cluster)) : Prop :=
  let answer := run_SSHCommand host before "sudo atomic host upgrade" in
  snd answer = Some "exit status 77"
  \/ (snd answer = None
      /\ strings.Contains (fst answer) "No upgrade available." = true).

(** The state after [n] runs of [upgrade] in a row. *)
Fixpoint upgrade_runs (n : nat) (st : State Cluster) : State Cluster :=
  match n with
  | O => st
  | S k => snd (upgrade host (upgrade_runs k st))
  end.

End Steps_of_calls.

(** ** More hosts for the sample machine *)

Module trial.

(** The certificates as [setRemoteAuthOptions] places them. *)
Definition remote_certs : auth.Options :=
  {| auth.CaCertRemotePath := "/etc/docker/certs/ca.pem";
     auth.ServerCertRemotePath := "/etc/docker/certs/server.pem";
     auth.ServerKeyRemotePath := "/etc/docker/certs/server-key.pem" |}.

(** A host on which [ConfigureAuth] answers [auth_error] and
    [configureSwarm] answers [swarm_error]; [setRemoteAuthOptions] returns
    [remote_certs]; the other helpers succeed. *)
Definition host (auth_error swarm_error : option error) : Host unit :=
  {| run_SSHCommand := fun _ _ => ("", None);
     run_SetHostname := fun _ p _ => (p, None);
     run_makeDockerOptionsDir := fun _ p => (p, None);
     run_setRemoteAuthOptions := fun _ p => (p, remote_certs);
     run_ConfigureAuth := fun _ p => (p, auth_error);
     run_configureSwarm := fun _ p _ _ => (p, swarm_error);
     ServiceAction_String := sample.action_String |}.

(** A host that reports nothing to upgrade: by the exit status on the
    first run of the upgrade command, in the output on the later ones. *)
Definition up_to_date : Host unit :=
  {| run_SSHCommand :=
       fun before _ =>
         match before with
         | [] => ("", Some "exit status 77")
         | _ :: _ => ("No upgrade available.", None)
         end;
     run_SetHostname := fun _ p _ => (p, None);
     run_makeDockerOptionsDir := fun _ p => (p, None);
     run_setRemoteAuthOptions := fun _ p => (p, AuthOptions p);
     run_ConfigureAuth := fun _ p => (p, None);
     run_configureSwarm := fun _ p _ _ => (p, None);
     ServiceAction_String := sample.action_String |}.

End trial.

(** ** Slices as the language has them

    So far a slice stood for its elements.  A Go slice is a header: a
    pointer into a backing array, a length and a capacity; assigning a
    slice, or a struct that holds one, copies the header and not the
    array.  Where it matters whether two slices share their elements the
    headers are kept, and the arrays live in a heap. *)

Module slice.

(** A slice header; the pointer is a backing array and an offset in it. *)
Record Slice : Type := {
  array : nat;
  offset : nat;
  len : nat;
  cap : nat
}.

(** The backing arrays, by number. *)
Definition Heap : Type := list (list string).

Definition backing (h : Heap) (s : Slice) : list string :=
  nth (array s) h [].

(** The elements of [s] as the heap [h] has them. *)
Definition contents (h : Heap) (s : Slice) : list string :=
  firstn (len s) (skipn (offset s) (backing h s)).

Fixpoint replace {A : Type} (i : nat) (v : A) (l : list A) : list A :=
  match l, i with
  | [], _ => []
  | _ :: r, O => v :: r
  | x :: r, S j => x :: replace j v r
  end.

(** [s[i] = v]: an index out of range panics, here [None]. *)
Definition store (h : Heap) (s : Slice) (i : nat) (v : string)
  : option Heap :=
  if Nat.ltb i (len s)
  then Some (replace (array s) (replace (offset s + i) v (backing h s)) h)
  else None.

(** The nil slice. *)
Definition nil : Slice := {| array := 0; offset := 0; len := 0; cap := 0 |}.

End slice.

(** ** [Provision] on slice headers

    The same function as [Provision] above, statement by statement, with
    the slices of the options kept as headers.  [Provision] itself never
    reads or writes an element; the helpers, which receive the
    provisioner and the heap, may. *)

Declare Scope headers_scope.

Module mem.

Module engine.

(** [engine.Options], its slices as headers. *)
Record Options : Type := {
  ArbitraryFlags : slice.Slice;
  Env : slice.Slice;
  InsecureRegistry : slice.Slice;
  Labels : slice.Slice;
  RegistryMirror : slice.Slice;
  StorageDriver : string
}.

Definition set_StorageDriver (o : Options) (d : string) : Options :=
  {| ArbitraryFlags := ArbitraryFlags o; Env := Env o;
     InsecureRegistry := InsecureRegistry o; Labels := Labels o;
     RegistryMirror := RegistryMirror o; StorageDriver := d |}.

End engine.

Module swarm.

(** [swarm.Options], its environment list as a header. *)
Record Options (Cluster : Type) : Type := {
  Env : slice.Slice;
  Cluster_config : Cluster
}.

Arguments Env {Cluster} _.
Arguments Cluster_config {Cluster} _.

Definition set_Env {Cluster} (o : Options Cluster) (e : slice.Slice)
  : Options Cluster :=
  {| Env := e; Cluster_config := Cluster_config o |}.

End swarm.

Section Provisioner.

Variable Cluster : Type.

Record AtomicHostProvisioner : Type := {
  Driver : drivers.Driver;
  DaemonOptionsFile : string;
  AuthOptions : auth.Options;
  EngineOptions : engine.Options;
  SwarmOptions : swarm.Options Cluster
}.

Definition set_AuthOptions (p : AtomicHostProvisioner) (a : auth.Options) :=
  {| Driver := Driver p; DaemonOptionsFile := DaemonOptionsFile p;
     AuthOptions := a; EngineOptions := EngineOptions p;
     SwarmOptions := SwarmOptions p |}.

Definition set_EngineOptions (p : AtomicHostProvisioner) (e : engine.Options) :=
  {| Driver := Driver p; DaemonOptionsFile := DaemonOptionsFile p;
     AuthOptions := AuthOptions p; EngineOptions := e;
     SwarmOptions := SwarmOptions p |}.

Definition set_SwarmOptions (p : AtomicHostProvisioner)
  (s : swarm.Options Cluster) :=
  {| Driver := Driver p; DaemonOptionsFile := DaemonOptionsFile p;
     AuthOptions := AuthOptions p; EngineOptions := EngineOptions p;
     SwarmOptions := s |}.

(** The calls of [Provision]; a struct argument is the copy the callee
    receives, headers included. *)
Inductive Call : Type :=
| SetHostname_call (p : AtomicHostProvisioner) (hostname : string)
| makeDockerOptionsDir_call (p : AtomicHostProvisioner)
| setRemoteAuthOptions_call (p : AtomicHostProvisioner)
| ConfigureAuth_call (p : AtomicHostProvisioner)
| configureSwarm_call (p : AtomicHostProvisioner)
    (swarmOptions : swarm.Options Cluster) (authOptions : auth.Options).

(** What a helper leaves: the provisioner, the heap, and what it
    returns. *)
Record Answer (A : Type) : Type := {
  provisioner : AtomicHostProvisioner;
  memory : slice.Heap;
  returned : A
}.

Arguments provisioner {A} _.
Arguments memory {A} _.
Arguments returned {A} _.

(** The helpers: each answer is a function of the calls made before, of
    the heap and of the arguments. *)
Record Host : Type := {
  run_SetHostname :
    list Call -> slice.Heap -> AtomicHostProvisioner -> string ->
    Answer (option error);
  run_makeDockerOptionsDir :
    list Call -> slice.Heap -> AtomicHostProvisioner -> Answer (option error);
  run_setRemoteAuthOptions :
    list Call -> slice.Heap -> AtomicHostProvisioner -> Answer auth.Options;
  run_ConfigureAuth :
    list Call -> slice.Heap -> AtomicHostProvisioner -> Answer (option error);
  run_configureSwarm :
    list Call -> slice.Heap -> AtomicHostProvisioner ->
    swarm.Options Cluster -> auth.Options -> Answer (option error)
}.

Record State : Type := {
  self : AtomicHostProvisioner;
  heap : slice.Heap;
  calls : list Call
}.

Definition M (A : Type) : Type := State -> A * State.

Definition ret {A} (a : A) : M A := fun st => (a, st).

Definition bind {A B} (m : M A) (k : A -> M B) : M B :=
  fun st => let r := m st in k (fst r) (snd r).

Definition get_self : M AtomicHostProvisioner := fun st => (self st, st).

Definition put_self (p : AtomicHostProvisioner) : M unit :=
  fun st => (tt, {| self := p; heap := heap st; calls := calls st |}).

(** The calls a computation makes from [st] on. *)
Definition issued {A} (m : M A) (st : State) : list Call :=
  skipn (List.length (calls st)) (calls (snd (m st))).

(** A helper called with the arguments [c]: the call is logged, the
    provisioner and the heap are what the helper leaves. *)
Definition call {A} (c : Call) (answer : Answer A) : M A :=
  fun st =>
    (returned answer,
     {| self := provisioner answer; heap := memory answer;
        calls := (calls st ++ [c])%list |}).

Variable host : Host.

Definition SetHostname (hostname : string) : M (option error) :=
  fun st =>
    call (SetHostname_call (self st) hostname)
      (run_SetHostname host (calls st) (heap st) (self st) hostname) st.

Definition makeDockerOptionsDir : M (option error) :=
  fun st =>
    call (makeDockerOptionsDir_call (self st))
      (run_makeDockerOptionsDir host (calls st) (heap st) (self st)) st.

Definition setRemoteAuthOptions : M auth.Options :=
  fun st =>
    call (setRemoteAuthOptions_call (self st))
      (run_setRemoteAuthOptions host (calls st) (heap st) (self st)) st.

Definition ConfigureAuth : M (option error) :=
  fun st =>
    call (ConfigureAuth_call (self st))
      (run_ConfigureAuth host (calls st) (heap st) (self st)) st.

Definition configureSwarm (swarmOptions : swarm.Options Cluster)
  (authOptions : auth.Options) : M (option error) :=
  fun st =>
    call (configureSwarm_call (self st) swarmOptions authOptions)
      (run_configureSwarm host (calls st) (heap st) (self st) swarmOptions
         authOptions) st.

Notation "x <- m ;; k" := (bind m (fun x => k))
  (at level 61, m at next level, right associativity) : headers_scope.
Notation "m ;;; k" := (bind m (fun _ => k))
  (at level 61, right associativity) : headers_scope.
Notation "'check' m ;; k" :=
  (bind m (fun err => match err with Some e => ret (Some e) | None => k end))
  (at level 61, m at next level, right associativity) : headers_scope.
Local Open Scope headers_scope.

Definition Provision (swarmOptions : swarm.Options Cluster)
  (authOptions : auth.Options) (engineOptions : engine.Options)
  : M (option error) :=
  p <- get_self ;; put_self (set_SwarmOptions p swarmOptions) ;;;
  p <- get_self ;; put_self (set_AuthOptions p authOptions) ;;;
  p <- get_self ;; put_self (set_EngineOptions p engineOptions) ;;;
  let swarmOptions := swarm.set_Env swarmOptions (engine.Env engineOptions) in
  check (p <- get_self ;;
         if engine.StorageDriver (EngineOptions p) =? ""
         then put_self
                (set_EngineOptions p
                   (engine.set_StorageDriver (EngineOptions p) "overlay")) ;;;
              ret None
         else if negb (engine.StorageDriver (EngineOptions p) =? "overlay")
         then ret (Some ("Unsupported storage driver: "
                         ++ engine.StorageDriver (EngineOptions p)))
         else ret None) ;;
  p <- get_self ;;
  check SetHostname (drivers.GetMachineName (Driver p)) ;;
  check makeDockerOptionsDir ;;
  a <- setRemoteAuthOptions ;;
  p <- get_self ;; put_self (set_AuthOptions p a) ;;;
  check ConfigureAuth ;;
  p <- get_self ;;
  check configureSwarm swarmOptions (AuthOptions p) ;;
  ret None.

(** The helpers leave the swarm options of the provisioner as they find
    them: what the field holds after a run is then what [Provision] itself
    has put there. *)
Definition keeps_swarm_options : Prop :=
  (forall l h p n,
      SwarmOptions (provisioner (run_SetHostname host l h p n))
      = SwarmOptions p)
  /\ (forall l h p,
         SwarmOptions (provisioner (run_makeDockerOptionsDir host l h p))
         = SwarmOptions p)
  /\ (forall l h p,
         SwarmOptions (provisioner (run_setRemoteAuthOptions host l h p))
         = SwarmOptions p)
  /\ (forall l h p,
         SwarmOptions (provisioner (run_ConfigureAuth host l h p))
         = SwarmOptions p)
  /\ (forall l h p s a,
         SwarmOptions (provisioner (run_configureSwarm host l h p s a))
         = SwarmOptions p).

End Provisioner.

Arguments Driver {Cluster} _.
Arguments DaemonOptionsFile {Cluster} _.
Arguments AuthOptions {Cluster} _.
Arguments EngineOptions {Cluster} _.
Arguments SwarmOptions {Cluster} _.
Arguments set_AuthOptions {Cluster} _ _.
Arguments set_EngineOptions {Cluster} _ _.
Arguments set_SwarmOptions {Cluster} _ _.
Arguments SetHostname_call {Cluster} _ _.
Arguments makeDockerOptionsDir_call {Cluster} _.
Arguments setRemoteAuthOptions_call {Cluster} _.
Arguments ConfigureAuth_call {Cluster} _.
Arguments configureSwarm_call {Cluster} _ _ _.
Arguments provisioner {Cluster A} _.
Arguments memory {Cluster A} _.
Arguments returned {Cluster A} _.
Arguments run_SetHostname {Cluster} _ _ _ _ _.
Arguments run_makeDockerOptionsDir {Cluster} _ _ _ _.
Arguments run_setRemoteAuthOptions {Cluster} _ _ _ _.
Arguments run_ConfigureAuth {Cluster} _ _ _ _.
Arguments run_configureSwarm {Cluster} _ _ _ _ _ _.
Arguments self {Cluster} _.
Arguments heap {Cluster} _.
Arguments calls {Cluster} _.
Arguments ret {Cluster A} _ _.
Arguments bind {Cluster A B} _ _ _.
Arguments get_self {Cluster} _.
Arguments put_self {Cluster} _ _.
Arguments issued {Cluster A} _ _.
Arguments call {Cluster A} _ _ _.
Arguments SetHostname {Cluster} _ _ _.
Arguments makeDockerOptionsDir {Cluster} _ _.
Arguments setRemoteAuthOptions {Cluster} _ _.
Arguments ConfigureAuth {Cluster} _ _.
Arguments configureSwarm {Cluster} _ _ _ _.
Arguments Provision {Cluster} _ _ _ _ _.
Arguments keeps_swarm_options {Cluster} _.

End mem.

(** ** A sample machine on slice headers *)

Module shared.

(** The heap: the environment list of the engine options, the environment
    list of the swarm options. *)
Definition heap : slice.Heap :=
  [["HTTP_PROXY=http://proxy:3128"; "TMPDIR=/var/tmp"]; ["SWARM=1"]].

Definition engine_env : slice.Slice :=
  {| slice.array := 0; slice.offset := 0; slice.len := 2; slice.cap := 2 |}.

Definition swarm_env : slice.Slice :=
  {| slice.array := 1; slice.offset := 0; slice.len := 1; slice.cap := 1 |}.

Definition options (driver : string) : mem.engine.Options :=
  {| mem.engine.ArbitraryFlags := slice.nil; mem.engine.Env := engine_env;
     mem.engine.InsecureRegistry := slice.nil; mem.engine.Labels := slice.nil;
     mem.engine.RegistryMirror := slice.nil;
     mem.engine.StorageDriver := driver |}.

Definition cluster : mem.swarm.Options unit :=
  {| mem.swarm.Env := swarm_env; mem.swarm.Cluster_config := tt |}.

Definition machine (e : mem.engine.Options) : mem.AtomicHostProvisioner unit :=
  {| mem.Driver := sample.driver;
     mem.DaemonOptionsFile := "/etc/systemd/system/docker.service";
     mem.AuthOptions := sample.certs; mem.EngineOptions := e;
     mem.SwarmOptions := cluster |}.

Definition fresh : mem.State unit :=
  {| mem.self :=
       machine
         {| mem.engine.ArbitraryFlags := slice.nil;
            mem.engine.Env := slice.nil;
            mem.engine.InsecureRegistry := slice.nil;
            mem.engine.Labels := slice.nil;
            mem.engine.RegistryMirror := slice.nil;
            mem.engine.StorageDriver := "" |};
     mem.heap := heap; mem.calls := [] |}.

Definition unchanged {A} (p : mem.AtomicHostProvisioner unit)
  (h : slice.Heap) (a : A) : mem.Answer unit A :=
  {| mem.provisioner := p; mem.memory := h; mem.returned := a |}.

(** A host whose helpers succeed and touch nothing, except that the swarm
    step sets the first variable of the environment list it is handed,
    through the options it is handed. *)
Definition host (variable : string) : mem.Host unit :=
  {| mem.run_SetHostname := fun _ h p _ => unchanged p h None;
     mem.run_makeDockerOptionsDir := fun _ h p => unchanged p h None;
     mem.run_setRemoteAuthOptions :=
       fun _ h p => unchanged p h (mem.AuthOptions p);
     mem.run_ConfigureAuth := fun _ h p => unchanged p h None;
     mem.run_configureSwarm :=
       fun _ h p swarmOptions _ =>
         match slice.store h (mem.swarm.Env swarmOptions) 0 variable with
         | Some h' => unchanged p h' None
         | None => unchanged p h None
         end |}.

End shared.

(** The second half of the claim on the swarm options, as the
    specification words it: the environment list handed to the swarm step
    is a copy and no shared reference, so that nothing stored through it
    shows in the environment list of the engine options. *)
Definition swarm_Env_is_a_copy {Cluster : Type} (host : mem.Host Cluster)
  (st : mem.State Cluster) (swarmOptions : mem.swarm.Options Cluster)
  (authOptions : auth.Options) (engineOptions : mem.engine.Options) : Prop :=
  forall p handed a,
    In (mem.configureSwarm_call p handed a)
      (mem.issued
         (mem.Provision host swarmOptions authOptions engineOptions) st) ->
    forall h h' i v,
      slice.store h (mem.swarm.Env handed) i v = Some h' ->
      slice.contents h' (mem.engine.Env engineOptions)
      = slice.contents h (mem.engine.Env engineOptions).

(** ** Basic facts on strings *)

Lemma append_nil_r (s : string) : s ++ "" = s.
Proof. induction s as [|c s IH]; simpl; [reflexivity | now rewrite IH]. Qed.

Lemma append_assoc (a b c : string) : (a ++ b) ++ c = a ++ b ++ c.
Proof. induction a as [|x a IH]; simpl; [reflexivity | now rewrite IH]. Qed.

Lemma prefix_append (a s : string) :
  prefix a s = true <-> exists post, s = a ++ post.
Proof.
  revert s; induction a as [|x a IH]; intros s.
  - destruct s; simpl; split; eauto.
  - destruct s as [|y s]; simpl.
    + split; [discriminate | intros [post H]; discriminate].
    + destruct (ascii_dec x y) as [->|Hxy].
      * rewrite IH. split; intros [post H]; exists post.
        -- now rewrite H.
        -- now injection H.
      * split; [discriminate | intros [post H]; injection H; congruence].
Qed.

Lemma Contains_nil (substr : string) :
  strings.Contains "" substr = prefix substr "".
Proof. unfold strings.Contains. apply orb_false_r. Qed.

Lemma Contains_cons (c : ascii) (s substr : string) :
  strings.Contains (String c s) substr
  = prefix substr (String c s) || strings.Contains s substr.
Proof. reflexivity. Qed.

(** [strings.Contains] decides the occurrence of [substr] in [s]. *)
Lemma Contains_occurs (s substr : string) :
  strings.Contains s substr = true
  <-> exists pre post, s = pre ++ substr ++ post.
Proof.
  induction s as [|c s IH].
  - rewrite Contains_nil, prefix_append. split.
    + intros [post H]. exists "", post. exact H.
    + intros [pre [post H]]. destruct pre; simpl in H.
      * eauto.
      * discriminate.
  - rewrite Contains_cons, orb_true_iff, prefix_append, IH. split.
    + intros [[post H] | [pre [post H]]].
      * exists "", post. exact H.
      * exists (String c pre), post. simpl. now rewrite H.
    + intros [pre [post H]]. destruct pre as [|x pre]; simpl in H.
      * left. eauto.
      * right. injection H as _ H. eauto.
Qed.
(** A flag determines its entry. *)
Lemma append_inj_l (a x y : string) : a ++ x = a ++ y -> x = y.
Proof.
  induction a as [|c a IH]; simpl; intros H; [exact H|].
  injection H as H. auto.
Qed.

Lemma append_space_inj (x y : string) : x ++ " " = y ++ " " -> x = y.
Proof.
  revert y. induction x as [|c x IH]; intros [|d y] H; simpl in H.
  - reflexivity.
  - injection H as _ H. destruct y; discriminate H.
  - injection H as _ H. destruct x; discriminate H.
  - injection H as -> H. now rewrite (IH y H).
Qed.

Lemma flag_inj (flag x y : string) :
  flag ++ x ++ " " = flag ++ y ++ " " -> x = y.
Proof. intros H. now apply append_space_inj, (append_inj_l flag). Qed.

(** ** Facts on the monad and the log *)

Lemma skipn_length_app {A} (l d : list A) :
skipn (List.length l) (l ++ d)%list = d.
Proof. induction l as [|x l IH]; simpl; [reflexivity | exact IH]. Qed.

Lemma issued_extends {Cluster A} (m : M Cluster A) (st : State Cluster)
(d : list (Call Cluster)) :
calls (snd (m st)) = (calls st ++ d)%list -> issued m st = d.
Proof. intros H. unfold issued. rewrite H. apply skipn_length_app. Qed.

Lemma count_command_one {Cluster} (cmd args : string) :
  count_command cmd [ssh (Cluster := Cluster) args]
  = if args =? cmd then 1 else 0.
Proof. unfold count_command, ssh. cbn. now destruct (args =? cmd). Qed.

(** A string without a space is not of the form [a ++ " " ++ b]. *)
Lemma spaceless_neq (t a b : string) :
strings.Contains t " " = false -> t <> a ++ " " ++ b.
Proof.
intros Hno Heq.
assert (H : strings.Contains t " " = true)
  by (apply Contains_occurs; eauto).
congruence.
Qed.

(** ** The upgrade workflow *)

Section UpgradeProperties.

Context {Cluster : Type}.
Variable host : Host Cluster.

(** [upgrade], case by case on the answer to the upgrade command. *)
Lemma upgrade_run (st : State Cluster) :
  upgrade host st =
  match snd (upgrade_answer host st) with
  | Some err =>
      (if err =? "exit status 77" then None else Some err, after_upgrade st)
  | None =>
      if strings.Contains (fst (upgrade_answer host st)) "No upgrade available."
      then (None, after_upgrade st)
      else (None,
            {| self := self st;
               calls := ((calls st ++ [ssh "sudo atomic host upgrade"])
                         ++ [ssh "sudo reboot"])%list |})
  end.
Proof.
  unfold upgrade, bind, SSHCommand, ssh, upgrade_answer, after_upgrade; simpl.
  destruct (snd (run_SSHCommand host (calls st) _)) as [err|].
  - destruct (err =? "exit status 77"); reflexivity.
  - destruct (strings.Contains _ _); reflexivity.
Qed.

(** C1. When the remote upgrade command fails: with the status text
    "exit status 77", [upgrade] returns nil; with any other error it
    returns that error; in both cases the upgrade command is the only
    call made, so no reboot command is issued. *)
Theorem upgrade_command_failure (st : State Cluster) (out : string)
  (err : error)
  (Hfail : upgrade_answer host st = (out, Some err)) :
  (err = "exit status 77" -> fst (upgrade host st) = None)
  /\ (err <> "exit status 77" -> fst (upgrade host st) = Some err)
  /\ issued (upgrade host) st = [ssh "sudo atomic host upgrade"]
  /\ count_command "sudo reboot" (issued (upgrade host) st) = 0.
Proof.
  assert (Hcalls : issued (upgrade host) st = [ssh "sudo atomic host upgrade"]).
  { apply issued_extends. rewrite upgrade_run, Hfail. simpl.
    reflexivity. }
  rewrite Hcalls. repeat split.
  - intros ->. rewrite upgrade_run, Hfail. reflexivity.
  - intros Hne. rewrite upgrade_run, Hfail. simpl.
    apply String.eqb_neq in Hne. now rewrite Hne.
Qed.

(** C2. When the remote upgrade command succeeds and its output contains
    "No upgrade available.", [upgrade] returns nil and the upgrade
    command is the only call made: no reboot command is issued. *)
Theorem upgrade_no_upgrade_marker (st : State Cluster) (out : string)
  (Hok : upgrade_answer host st = (out, None))
  (Hmarker : exists pre post, out = pre ++ "No upgrade available." ++ post) :
  fst (upgrade host st) = None
  /\ issued (upgrade host) st = [ssh "sudo atomic host upgrade"]
  /\ count_command "sudo reboot" (issued (upgrade host) st) = 0.
Proof.
  apply Contains_occurs in Hmarker.
  assert (Hrun : upgrade host st = (None, after_upgrade st)).
  { rewrite upgrade_run, Hok. simpl. now rewrite Hmarker. }
  assert (Hcalls : issued (upgrade host) st = [ssh "sudo atomic host upgrade"]).
  { apply issued_extends. now rewrite Hrun. }
  rewrite Hcalls, Hrun. repeat split.
Qed.

(** C3. When the remote upgrade command succeeds and its output does not
    contain "No upgrade available.", [upgrade] issues the reboot command
    once, right after the upgrade command, and returns nil whatever the
    reboot command answers. *)
Theorem upgrade_reboots_once (st : State Cluster) (out : string)
  (Hok : upgrade_answer host st = (out, None))
  (Hnomarker :
     ~ exists pre post, out = pre ++ "No upgrade available." ++ post) :
  forall answer,
    run_SSHCommand host (calls st ++ [ssh "sudo atomic host upgrade"])
      "sudo reboot" = answer ->
    fst (upgrade host st) = None
    /\ issued (upgrade host) st
       = [ssh "sudo atomic host upgrade"; ssh "sudo reboot"]
    /\ count_command "sudo reboot" (issued (upgrade host) st) = 1.
Proof.
  intros answer _.
  assert (Hno : strings.Contains out "No upgrade available." = false).
  { destruct (strings.Contains out "No upgrade available.") eqn:E;
      [|reflexivity].
    apply Contains_occurs in E. contradiction. }
  assert (Hrun : upgrade host st
                 = (None,
                    {| self := self st;
                       calls := ((calls st ++ [ssh "sudo atomic host upgrade"])
                                 ++ [ssh "sudo reboot"])%list |})).
  { rewrite upgrade_run, Hok. simpl. now rewrite Hno. }
  assert (Hcalls : issued (upgrade host) st
                   = [ssh "sudo atomic host upgrade"; ssh "sudo reboot"]).
  { apply issued_extends. rewrite Hrun. simpl. now rewrite <- app_assoc. }
  rewrite Hcalls, Hrun. repeat split.
Qed.

End UpgradeProperties.

(** ** The service controller *)

Section ServiceProperties.

Context {Cluster : Type}.
Variable host : Host Cluster.

(** [Service], case by case on the action and on the answer to the
    daemon-reload command. *)
Lemma Service_run (st : State Cluster) (name : string)
  (action : serviceaction.ServiceAction) :
  Service host name action st =
  if reloads action
  then match reload_error host st with
       | Some err =>
           (Some err,
            {| self := self st;
               calls := (calls st ++ [ssh "sudo systemctl daemon-reload"])%list |})
       | None =>
           (snd (run_SSHCommand host
                   (calls st ++ [ssh "sudo systemctl daemon-reload"])
                   (action_command host name action)),
            {| self := self st;
               calls := ((calls st ++ [ssh "sudo systemctl daemon-reload"])
                         ++ [ssh (action_command host name action)])%list |})
       end
  else (snd (run_SSHCommand host (calls st) (action_command host name action)),
        {| self := self st;
           calls := (calls st ++ [ssh (action_command host name action)])%list |}).
Proof.
  unfold Service, reload_error, ssh.
  fold (action_command host name action).
  generalize (action_command host name action) as command.
  intros command.
  destruct action; cbv [reloads bind ret SSHCommand fst snd self calls];
    repeat match goal with
      | |- context [match ?x with Some _ => _ | None => _ end] =>
          destruct x
      end; reflexivity.
Qed.

(** The calls of [Service], case by case. *)
Lemma Service_issued (st : State Cluster) (name : string)
  (action : serviceaction.ServiceAction) :
  issued (Service host name action) st =
  if reloads action
  then match reload_error host st with
       | None => [ssh "sudo systemctl daemon-reload";
                  ssh (action_command host name action)]
       | Some _ => [ssh "sudo systemctl daemon-reload"]
       end
  else [ssh (action_command host name action)].
Proof.
  apply issued_extends. rewrite Service_run.
  destruct (reloads action); [destruct (reload_error host st)|];
    cbn [snd calls]; rewrite <- ?app_assoc; reflexivity.
Qed.

(** The action command is never the daemon-reload command. *)
Lemma action_command_not_reload (name : string)
  (action : serviceaction.ServiceAction) :
  action_command host name action <> "sudo systemctl daemon-reload".
Proof.
  unfold action_command. simpl. intros H.
  repeat (injection H as H).
  change (String " " name) with (" " ++ name) in H.
  symmetry in H. revert H. apply spaceless_neq. reflexivity.
Qed.

(** C4. For every service name: [Service] with [Start] or [Restart]
    issues the daemon-reload command first and, the reload having
    succeeded, the action command "sudo systemctl <action> <name>" next,
    and nothing else; with [Stop] it issues the action command alone,
    without a daemon-reload. *)
Theorem Service_commands (st : State Cluster) (name : string) :
  (forall action,
      action = serviceaction.Start \/ action = serviceaction.Restart ->
      (reload_error host st = None ->
       issued (Service host name action) st
       = [ssh "sudo systemctl daemon-reload";
          ssh ("sudo systemctl " ++ ServiceAction_String host action
               ++ " " ++ name)])
      /\ exists rest,
          issued (Service host name action) st
          = ssh "sudo systemctl daemon-reload" :: rest)
  /\ issued (Service host name serviceaction.Stop) st
     = [ssh ("sudo systemctl "
             ++ ServiceAction_String host serviceaction.Stop
             ++ " " ++ name)]
  /\ count_command "sudo systemctl daemon-reload"
       (issued (Service host name serviceaction.Stop) st) = 0.
Proof.
  split; [|split].
  - intros action Haction. rewrite Service_issued.
    assert (Hr : reloads action = true) by (destruct Haction; subst; reflexivity).
    rewrite Hr. split.
    + intros ->. reflexivity.
    + destruct (reload_error host st); eauto.
  - rewrite Service_issued. reflexivity.
  - rewrite Service_issued. cbn [reloads]. rewrite count_command_one.
    pose proof (action_command_not_reload name serviceaction.Stop) as H.
    apply String.eqb_neq in H. now rewrite H.
Qed.

(** C5. For every service name and for [Start] and [Restart]: if the
    daemon-reload command fails, [Service] returns that error, the
    daemon-reload is the only call made, and the action command is not
    issued. *)
Theorem Service_reload_failure (st : State Cluster) (name : string)
  (action : serviceaction.ServiceAction) (err : error)
  (Haction : action = serviceaction.Start \/ action = serviceaction.Restart)
  (Hfail : reload_error host st = Some err) :
  fst (Service host name action st) = Some err
  /\ issued (Service host name action) st
     = [ssh "sudo systemctl daemon-reload"]
  /\ count_command
       ("sudo systemctl " ++ ServiceAction_String host action ++ " " ++ name)
       (issued (Service host name action) st) = 0.
Proof.
  assert (Hr : reloads action = true) by (destruct Haction; subst; reflexivity).
  split; [|split].
  - now rewrite Service_run, Hr, Hfail.
  - rewrite Service_issued, Hr, Hfail. reflexivity.
  - rewrite Service_issued, Hr, Hfail. rewrite count_command_one.
    pose proof (action_command_not_reload name action) as H.
    apply not_eq_sym, String.eqb_neq in H.
    fold (action_command host name action). now rewrite H.
Qed.

End ServiceProperties.

(** ** The provisioning sequence *)

Section ProvisionProperties.

Context {Cluster : Type}.
Variable host : Host Cluster.

(** [Provision] is the resolution of the storage driver followed by the
    steps. *)
Lemma Provision_run (st : State Cluster) (swarmOptions : swarm.Options Cluster)
  (authOptions : auth.Options) (engineOptions : engine.Options) :
  Provision host swarmOptions authOptions engineOptions st =
  let p := stored (self st) swarmOptions authOptions engineOptions in
  let swarmOptions' := swarm.set_Env swarmOptions (engine.Env engineOptions) in
  if engine.StorageDriver engineOptions =? ""
  then Provision_steps host swarmOptions'
         {| self := set_EngineOptions p
                      (engine.set_StorageDriver engineOptions "overlay");
            calls := calls st |}
  else if engine.StorageDriver engineOptions =? "overlay"
  then Provision_steps host swarmOptions' {| self := p; calls := calls st |}
  else (Some ("Unsupported storage driver: "
              ++ engine.StorageDriver engineOptions),
        {| self := p; calls := calls st |}).
Proof.
  unfold Provision, Provision_steps, stored.
  cbv [bind ret get_self put_self fst snd self calls].
  cbv [set_SwarmOptions set_AuthOptions set_EngineOptions Driver
         DaemonOptionsFile AuthOptions EngineOptions SwarmOptions].
  destruct (engine.StorageDriver engineOptions =? "") eqn:E1.
  - reflexivity.
  - destruct (engine.StorageDriver engineOptions =? "overlay") eqn:E2;
      reflexivity.
Qed.

(** Closes a case of the steps: the log is the former log followed by the
    calls made, and the only swarm call in it carries the options given. *)
Ltac steps_done :=
  eexists; split;
  [ rewrite <- ?app_assoc; rewrite skipn_length_app; cbn [app]; reflexivity
  | intros p so ao HIn; cbn [In] in HIn;
    repeat match goal with
      | H : _ \/ _ |- _ => destruct H
      end; solve [contradiction | congruence] ].

(** What the steps call, however the helpers answer: the hostname step
    first, and the swarm step, when it is reached, with the options and
    nothing but the options it was given. *)
Lemma Provision_steps_issued (st : State Cluster)
  (swarmOptions : swarm.Options Cluster) :
  exists rest,
    issued (Provision_steps host swarmOptions) st
    = SetHostname_call (self st) (drivers.GetMachineName (Driver (self st)))
        :: rest
    /\ forall p so ao,
        In (configureSwarm_call p so ao) rest -> so = swarmOptions.
Proof.
  unfold Provision_steps.
  cbv [bind ret get_self put_self fst snd].
  cbv [SetHostname makeDockerOptionsDir setRemoteAuthOptions ConfigureAuth
         configureSwarm].
  cbn [self calls fst snd].
  unfold issued. cbv beta.
  destruct (run_SetHostname host _ _ _) as [p1 [e1|]];
    cbn [fst snd self calls]; [steps_done|].
  destruct (run_makeDockerOptionsDir host _ _) as [p2 [e2|]];
    cbn [fst snd self calls]; [steps_done|].
  destruct (run_setRemoteAuthOptions host _ _) as [p3 a3];
    cbn [fst snd self calls].
  destruct (run_ConfigureAuth host _ _) as [p4 [e4|]];
    cbn [fst snd self calls]; [steps_done|].
  destruct (run_configureSwarm host _ _ _ _) as [p5 [e5|]];
    cbn [fst snd self calls]; steps_done.
Qed.

(** C6. If the storage driver of the engine options is empty, [Provision]
    goes on to the hostname step with the stored storage driver set to
    "overlay"; if it is neither empty nor "overlay", [Provision] returns the
    error "Unsupported storage driver: <driver>" without any call: no remote
    command is issued and the hostname step is not reached. *)
Theorem Provision_storage_driver (st : State Cluster)
  (swarmOptions : swarm.Options Cluster) (authOptions : auth.Options)
  (engineOptions : engine.Options) :
  (engine.StorageDriver engineOptions = "" ->
   exists p rest,
     issued (Provision host swarmOptions authOptions engineOptions) st
     = SetHostname_call p (drivers.GetMachineName (Driver (self st))) :: rest
     /\ p = set_EngineOptions
              (stored (self st) swarmOptions authOptions engineOptions)
              (engine.set_StorageDriver engineOptions "overlay")
     /\ engine.StorageDriver (EngineOptions p) = "overlay")
  /\ (engine.StorageDriver engineOptions <> ""
      -> engine.StorageDriver engineOptions <> "overlay"
      -> fst (Provision host swarmOptions authOptions engineOptions st)
         = Some ("Unsupported storage driver: "
                 ++ engine.StorageDriver engineOptions)
         /\ issued (Provision host swarmOptions authOptions engineOptions) st
            = []
         /\ calls (snd (Provision host swarmOptions authOptions engineOptions st))
            = calls st).
Proof.
  split.
  - intros Hempty.
    destruct (Provision_steps_issued
                {| self := set_EngineOptions
                             (stored (self st) swarmOptions authOptions
                                engineOptions)
                             (engine.set_StorageDriver engineOptions "overlay");
                   calls := calls st |}
                (swarm.set_Env swarmOptions (engine.Env engineOptions)))
      as [rest [Hrest _]].
    eexists. exists rest. split; [|split; reflexivity].
    unfold issued in *. rewrite Provision_run. cbv zeta.
    rewrite Hempty. cbn [String.eqb]. exact Hrest.
  - intros Hset Hother.
    apply String.eqb_neq in Hset, Hother.
    unfold issued. rewrite Provision_run. cbv zeta.
    rewrite Hset, Hother. cbn [fst snd calls].
    repeat split.
    rewrite <- (app_nil_r (calls st)) at 2. apply skipn_length_app.
Qed.

(** With the slices read as lists: whenever [Provision] reaches the
    swarm-configuration step, the options it hands to [configureSwarm] are
    the caller's swarm options with the environment list replaced by the
    environment list of the caller's engine options: the overwrite is made
    on the local copy, before the call.  Whether the two lists share their
    elements is settled on slice headers, further down. *)
Theorem Provision_swarm_environment (st : State Cluster)
  (swarmOptions : swarm.Options Cluster) (authOptions : auth.Options)
  (engineOptions : engine.Options)
  (p : AtomicHostProvisioner Cluster) (handed : swarm.Options Cluster)
  (a : auth.Options)
  (Hreached :
     In (configureSwarm_call p handed a)
       (issued (Provision host swarmOptions authOptions engineOptions) st)) :
  swarm.Env handed = engine.Env engineOptions
  /\ swarm.Cluster_config handed = swarm.Cluster_config swarmOptions
  /\ handed = swarm.set_Env swarmOptions (engine.Env engineOptions).
Proof.
  assert (H : handed = swarm.set_Env swarmOptions (engine.Env engineOptions)).
  { unfold issued in Hreached. rewrite Provision_run in Hreached.
    cbv zeta in Hreached.
    destruct (engine.StorageDriver engineOptions =? "");
      [|destruct (engine.StorageDriver engineOptions =? "overlay")].
    - match type of Hreached with
      | In _ (skipn _ (calls (snd (Provision_steps _ ?so ?st')))) =>
          destruct (Provision_steps_issued st' so) as [rest [Hrest Hswarm]]
      end.
      unfold issued in Hrest. cbn [calls] in Hrest.
      rewrite Hrest in Hreached. destruct Hreached as [Hhead | Hin].
      + discriminate Hhead.
      + exact (Hswarm _ _ _ Hin).
    - match type of Hreached with
      | In _ (skipn _ (calls (snd (Provision_steps _ ?so ?st')))) =>
          destruct (Provision_steps_issued st' so) as [rest [Hrest Hswarm]]
      end.
      unfold issued in Hrest. cbn [calls] in Hrest.
      rewrite Hrest in Hreached. destruct Hreached as [Hhead | Hin].
      + discriminate Hhead.
      + exact (Hswarm _ _ _ Hin).
    - cbn [snd calls] in Hreached.
      rewrite <- (app_nil_r (calls st)) in Hreached at 2.
      rewrite skipn_length_app in Hreached. destruct Hreached. }
  subst handed. repeat split.
Qed.

(** The provisioner itself keeps the swarm options as the caller gave
    them: the overwrite of the environment list is not stored. *)
Lemma Provision_keeps_swarm_options (st : State Cluster)
  (swarmOptions : swarm.Options Cluster) (authOptions : auth.Options)
  (engineOptions : engine.Options) (p : AtomicHostProvisioner Cluster)
  (hostname : string) (rest : list (Call Cluster)) :
  issued (Provision host swarmOptions authOptions engineOptions) st
  = SetHostname_call p hostname :: rest ->
  SwarmOptions p = swarmOptions.
Proof.
  unfold issued. rewrite Provision_run. cbv zeta.
  destruct (engine.StorageDriver engineOptions =? "");
    [|destruct (engine.StorageDriver engineOptions =? "overlay")].
  - match goal with
    | |- skipn _ (calls (snd (Provision_steps _ ?so ?st'))) = _ -> _ =>
        destruct (Provision_steps_issued st' so) as [rest' [Hrest _]]
    end.
    unfold issued in Hrest. cbn [calls] in Hrest. rewrite Hrest.
    intros H. injection H as <- _ _. reflexivity.
  - match goal with
    | |- skipn _ (calls (snd (Provision_steps _ ?so ?st'))) = _ -> _ =>
        destruct (Provision_steps_issued st' so) as [rest' [Hrest _]]
    end.
    unfold issued in Hrest. cbn [calls] in Hrest. rewrite Hrest.
    intros H. injection H as <- _ _. reflexivity.
  - cbn [snd calls]. rewrite <- (app_nil_r (calls st)) at 2.
    rewrite skipn_length_app. discriminate.
Qed.

End ProvisionProperties.

(** ** The template library on the unit-file template *)

Section TemplateProperties.

Variable Sprintf : string -> template.value -> string.

Lemma Parse_engineConfigTmpl :
  template.Parse "engineConfig" engineConfigTmpl = inl engineConfig.
Proof. vm_compute. reflexivity. Qed.

(** The loop over the nodes inside [walk] is [walk_nodes]. *)
Lemma walk_range_nodes (body : list template.Node) (v : template.value)
  (wr : string) :
  (fix nodes (ns : list template.Node) (wr : string) {struct ns}
     : string * option error :=
     match ns with
     | [] => (wr, None)
     | n' :: ns' =>
         match template.walk Sprintf n' v wr with
         | (wr', None) => nodes ns' wr'
         | r => r
         end
     end) body wr
  = template.walk_nodes Sprintf body v wr.
Proof.
  revert wr. induction body as [|n body IH]; intros wr.
  - reflexivity.
  - cbn [template.walk_nodes].
    destruct (template.walk Sprintf n v wr) as [wr' [e|]].
    + reflexivity.
    + apply IH.
Qed.

(** A [range] node runs its body on each element of the slice. *)
Lemma walk_range (p : template.Pipe) (body : list template.Node)
  (dot : template.value) (vs : list template.value) (wr : string) :
  template.eval Sprintf p dot = inl (template.VSlice vs) ->
  template.walk Sprintf (template.NRange p body) dot wr
  = template.walk_each Sprintf body vs wr.
Proof.
  intros Heval. cbn [template.walk]. rewrite Heval. clear Heval.
  revert wr. induction vs as [|v vs IH]; intros wr.
  - reflexivity.
  - cbn [template.walk_each]. rewrite walk_range_nodes.
    destruct (template.walk_nodes Sprintf body v wr) as [wr' [e|]].
    + reflexivity.
    + apply IH.
Qed.

(** A body that writes [f x] on the string [x] writes, over a slice of
    strings, the texts of the elements one after the other. *)
Lemma walk_each_strings (body : list template.Node) (f : string -> string)
  (Hbody : forall x wr,
      template.walk_nodes Sprintf body (template.VString x) wr
      = (wr ++ f x, None))
  (l : list string) (wr : string) :
  template.walk_each Sprintf body (map template.VString l) wr
  = (wr ++ String.concat "" (map f l), None).
Proof.
  revert wr. induction l as [|x l IH]; intros wr.
  - cbn. now rewrite append_nil_r.
  - cbn [map template.walk_each]. rewrite Hbody, IH, append_assoc.
    destruct l; cbn [map String.concat]; [now rewrite append_nil_r|].
    reflexivity.
Qed.

(** The five loops of the template, on a string. *)
Lemma walk_flag_body (flag x wr : string) :
  template.walk_nodes Sprintf
    [template.NText flag; template.NAction (template.PField []);
     template.NText " "]
    (template.VString x) wr
  = (wr ++ flag ++ x ++ " ", None).
Proof. cbn. now rewrite !append_assoc. Qed.

Lemma walk_quoted_body (x wr : string) :
  template.walk_nodes Sprintf
    [template.NAction (template.PPrintf "%q" []); template.NText " "]
    (template.VString x) wr
  = (wr ++ Sprintf "%q" (template.VString x) ++ " ", None).
Proof. cbn. now rewrite !append_assoc. Qed.

(** [walk_nodes], node by node. *)
Lemma walk_nodes_text (s : string) (ns : list template.Node)
  (dot : template.value) (wr : string) :
  template.walk_nodes Sprintf (template.NText s :: ns) dot wr
  = template.walk_nodes Sprintf ns dot (wr ++ s).
Proof. reflexivity. Qed.

Lemma walk_nodes_field (path : list string) (ns : list template.Node)
  (dot v : template.value) (wr : string) :
  template.eval_field path dot = inl v ->
  template.walk_nodes Sprintf (template.NAction (template.PField path) :: ns)
    dot wr
  = template.walk_nodes Sprintf ns dot (wr ++ template.print v).
Proof.
  intros H. cbn [template.walk_nodes template.walk template.eval].
  now rewrite H.
Qed.

Lemma walk_nodes_range (path : list string) (body ns : list template.Node)
  (f : string -> string) (dot : template.value) (l : list string)
  (wr : string) :
  template.eval_field path dot = inl (reflect_strings l) ->
  (forall x wr,
      template.walk_nodes Sprintf body (template.VString x) wr
      = (wr ++ f x, None)) ->
  template.walk_nodes Sprintf
    (template.NRange (template.PField path) body :: ns) dot wr
  = template.walk_nodes Sprintf ns dot (wr ++ String.concat "" (map f l)).
Proof.
  intros Hfield Hbody. cbn [template.walk_nodes].
  rewrite (walk_range _ _ _ (map template.VString l)) by exact Hfield.
  now rewrite (walk_each_strings body f Hbody).
Qed.

(** Refinement: executing the parsed template on the data of a context
    writes the unit file of the reference rendering, without error. *)
Lemma Execute_engineConfig (c : EngineConfigContext) :
  template.Execute Sprintf engineConfig (reflect_context c)
  = (unit_file_spec Sprintf (ctx_DockerPort c) (ctx_AuthOptions c)
       (ctx_EngineOptions c), None).
Proof.
  unfold template.Execute, engineConfig.
  repeat
    first
      [ rewrite walk_nodes_text
      | erewrite walk_nodes_field by reflexivity
      | erewrite walk_nodes_range
          by first [ reflexivity | apply walk_flag_body | apply walk_quoted_body ] ].
  cbn [template.walk_nodes template.print].
  unfold unit_file_spec, unit_file_head, unit_file_tail, flags, quoted.
  rewrite !append_assoc.
  reflexivity.
Qed.

End TemplateProperties.

(** ** Counting flags in the text of the reference rendering *)

Lemma prefix_nil (s : string) : prefix "" s = true.
Proof. destruct s; reflexivity. Qed.

Lemma prefix_cons (a b : ascii) (s1 s2 : string) :
  prefix (String a s1) (String b s2)
  = if ascii_dec a b then prefix s1 s2 else false.
Proof. reflexivity. Qed.

(** A word that ends with its only space and begins a text in which a
    space comes after [u] begins [u] followed by that space. *)
Lemma prefix_stops_at_space (body u rest : string) :
  strings.Contains body " " = false ->
  prefix (body ++ " ") (u ++ String " " rest) = true ->
  prefix (body ++ " ") (u ++ " ") = true.
Proof.
  revert u. induction body as [|b body IH]; intros u Hbody H.
  - destruct u as [|c u]; [reflexivity|].
    cbn [append] in *. rewrite prefix_cons in *.
    destruct (ascii_dec " " c); [apply prefix_nil | discriminate H].
  - rewrite Contains_cons in Hbody. apply orb_false_iff in Hbody.
    destruct Hbody as [Hb Hbody]. rewrite prefix_cons in Hb.
    destruct u as [|c u]; cbn [append] in *; rewrite prefix_cons in *.
    + destruct (ascii_dec b " ") as [->|]; [|discriminate H].
      destruct (ascii_dec " " " "); [|contradiction].
      rewrite prefix_nil in Hb. discriminate Hb.
    + destruct (ascii_dec b c); [|discriminate H]. now apply IH.
Qed.

Lemma Count_from_cons (c : ascii) (s w : string) :
  strings.Count_from 0 (String c s) w
  = if prefix w (String c s)
    then S (strings.Count_from (String.length w - 1) s w)
    else strings.Count_from 0 s w.
Proof. reflexivity. Qed.

(** No occurrence of the flag begins in an entry free of it. *)
Lemma Count_from_free (w v rest : string) :
  flag_word w -> free_of w v ->
  strings.Count_from 0 (v ++ String " " rest) w = strings.Count_from 0 rest w.
Proof.
  intros [body [-> Hbody]]. unfold free_of.
  induction v as [|c v IH]; intros Hfree.
  - cbn [append] in *. rewrite Count_from_cons.
    rewrite Contains_cons in Hfree. apply orb_false_iff in Hfree.
    destruct Hfree as [Hfree _].
    destruct (prefix (body ++ " ") (String " " rest)) eqn:E; [|reflexivity].
    apply (prefix_stops_at_space body "" rest Hbody) in E.
    cbn [append] in E. congruence.
  - cbn [append] in *. rewrite Count_from_cons.
    rewrite Contains_cons in Hfree. apply orb_false_iff in Hfree.
    destruct Hfree as [Hhere Hfree].
    destruct (prefix (body ++ " ") (String c (v ++ String " " rest))) eqn:E.
    + apply (prefix_stops_at_space body (String c v) rest Hbody) in E.
      cbn [append] in E. congruence.
    + now apply IH.
Qed.

(** A word that begins a text made of two pieces begins the first piece,
    or the first piece begins the word. *)
Lemma prefix_of_append (w lit tail : string) :
  prefix w (lit ++ tail) = true ->
  prefix w lit = true \/ prefix lit w = true.
Proof.
  revert lit. induction w as [|a w IH]; intros lit H.
  - left. apply prefix_nil.
  - destruct lit as [|c lit]; [right; reflexivity|].
    cbn [append] in H. rewrite prefix_cons in *.
    rewrite (prefix_cons c a).
    destruct (ascii_dec a c) as [->|]; [|discriminate H].
    destruct (ascii_dec c c); [|contradiction].
    now apply IH.
Qed.

Lemma prefix_append_tail (w lit tail : string) :
  prefix w lit = true -> prefix w (lit ++ tail) = true.
Proof.
  intros H. apply prefix_append in H. destruct H as [post ->].
  apply prefix_append. exists (post ++ tail). apply append_assoc.
Qed.

(** The count over a fixed piece of text followed by anything. *)
Lemma Count_from_literal (lit tail w : string) (skip n k : nat) :
  scan skip lit w = Some (n, k) ->
  strings.Count_from skip (lit ++ tail) w
  = n + strings.Count_from k tail w.
Proof.
  revert skip n k. induction lit as [|c lit IH]; intros skip n k H.
  - cbn in H. injection H as <- <-. reflexivity.
  - cbn [append]. destruct skip as [|skip].
    + cbn [scan] in H. rewrite Count_from_cons.
      destruct (prefix w (String c lit)) eqn:Ehere.
      * change (String c (lit ++ tail)) with (String c lit ++ tail).
        rewrite (prefix_append_tail _ _ tail Ehere).
        destruct (scan (String.length w - 1) lit w) as [[n' k']|] eqn:E;
          [|discriminate H].
        injection H as <- <-. rewrite (IH _ _ _ E). reflexivity.
      * destruct (prefix (String c lit) w) eqn:Eopen; [discriminate H|].
        destruct (prefix w (String c (lit ++ tail))) eqn:Eall.
        -- change (String c (lit ++ tail)) with (String c lit ++ tail) in Eall.
           apply prefix_of_append in Eall. destruct Eall; congruence.
        -- now apply IH.
    + cbn [scan] in H. cbn [strings.Count_from]. now apply IH.
Qed.

Lemma concat_cons (x : string) (l : list string) :
  String.concat "" (x :: l) = x ++ String.concat "" l.
Proof.
  destruct l; cbn [String.concat]; [now rewrite append_nil_r | reflexivity].
Qed.

(** Segments whose entries are free of the flag hold no occurrence. *)
Lemma Count_from_segments (w : string) (g : string -> string)
  (l : list string) (rest : string) :
  flag_word w -> Forall (fun x => free_of w (g x)) l ->
  strings.Count_from 0
    (String.concat "" (map (fun x => g x ++ " ") l) ++ rest) w
  = strings.Count_from 0 rest w.
Proof.
  intros Hw. induction 1 as [|x l Hx Hl IH]; [reflexivity|].
  cbn [map]. rewrite concat_cons, !append_assoc.
  change (" " ++ String.concat "" (map (fun x => g x ++ " ") l) ++ rest)
    with (String " "
            (String.concat "" (map (fun x => g x ++ " ") l) ++ rest)).
  now rewrite (Count_from_free w _ _ Hw Hx).
Qed.

(** Flags whose fixed part holds [n] occurrences and whose entries are
    free of the flag counted: [n] occurrences per entry. *)
Lemma Count_from_flags (w flag : string) (n : nat) (l : list string)
  (rest : string) :
  flag_word w -> scan 0 flag w = Some (n, 0) -> Forall (free_of w) l ->
  strings.Count_from 0 (String.concat "" (flags flag l) ++ rest) w
  = n * List.length l + strings.Count_from 0 rest w.
Proof.
  intros Hw Hflag. induction 1 as [|x l Hx Hl IH]; [now rewrite Nat.mul_0_r|].
  unfold flags in *. cbn [map List.length].
  rewrite concat_cons, !append_assoc.
  rewrite (Count_from_literal flag _ w 0 n 0 Hflag).
  change (" " ++ String.concat "" (map (fun x => flag ++ x ++ " ") l) ++ rest)
    with (String " "
            (String.concat "" (map (fun x => flag ++ x ++ " ") l) ++ rest)).
  rewrite (Count_from_free w _ _ Hw Hx), IH. lia.
Qed.

(** Flags counted with their fixed part joined to the entry. *)
Lemma Count_from_joined_flags (w flag : string) (l : list string)
  (rest : string) :
  flag_word w -> Forall (fun x => free_of w (flag ++ x)) l ->
  strings.Count_from 0 (String.concat "" (flags flag l) ++ rest) w
  = strings.Count_from 0 rest w.
Proof.
  intros Hw Hl. unfold flags.
  rewrite (map_ext _ (fun x => (flag ++ x) ++ " "))
    by (intros x; now rewrite append_assoc).
  now apply (Count_from_segments w (fun x => flag ++ x)).
Qed.

Lemma Count_from_free_literal (w v lit rest : string) :
  flag_word w -> free_of w v ->
  strings.Count_from 0 (v ++ String " " lit ++ rest) w
  = strings.Count_from 0 (lit ++ rest) w.
Proof. intros Hw Hv. exact (Count_from_free w v (lit ++ rest) Hw Hv). Qed.

Lemma flag_word_label : flag_word "--label ".
Proof. exists "--label". split; reflexivity. Qed.

Lemma flag_word_insecure_registry : flag_word "--insecure-registry ".
Proof. exists "--insecure-registry". split; reflexivity. Qed.

Lemma flag_word_registry_mirror : flag_word "--registry-mirror ".
Proof. exists "--registry-mirror". split; reflexivity. Qed.

(** Walks the text of [unit_file_spec] piece by piece: the fixed pieces
    by [scan], the entries by their freedom of the flag [w]. *)
Ltac count_pieces Hw Hfree :=
  destruct Hfree as
    [Hport Hdriver Hca Hcert Hkey Hlabels Hregistries Hmirrors Hflags Henv];
  unfold strings.Count, unit_file_spec, unit_file_head, unit_file_tail, quoted;
  rewrite !append_assoc;
  repeat
    first
      [ erewrite Count_from_literal by (vm_compute; reflexivity)
      | rewrite (Count_from_free_literal _ _ _ _ Hw Hport)
      | rewrite (Count_from_free_literal _ _ _ _ Hw Hdriver)
      | rewrite (Count_from_free_literal _ _ _ _ Hw Hca)
      | rewrite (Count_from_free_literal _ _ _ _ Hw Hcert)
      | rewrite (Count_from_free_literal _ _ _ _ Hw Hkey)
      | erewrite (Count_from_flags _ _ _ _ _ Hw) by
          first [ exact Hlabels | exact Hregistries | exact Hmirrors
                | vm_compute; reflexivity ]
      | rewrite (Count_from_joined_flags _ "--" _ _ Hw Hflags)
      | rewrite (Count_from_segments _ _ _ _ Hw Henv)
      | progress cbn [append] ].

(** The flags of the reference rendering, counted in the text: when the
    entries are free of a flag, the text holds that flag once per entry of
    its list. *)
Lemma unit_file_spec_counts (Sprintf : string -> template.value -> string)
  (dockerPort : Z) (a : auth.Options) (e : engine.Options) :
  (entries_free_of Sprintf "--label " dockerPort a e ->
   strings.Count (unit_file_spec Sprintf dockerPort a e) "--label "
   = List.length (engine.Labels e))
  /\ (entries_free_of Sprintf "--insecure-registry " dockerPort a e ->
      strings.Count (unit_file_spec Sprintf dockerPort a e)
        "--insecure-registry "
      = List.length (engine.InsecureRegistry e))
  /\ (entries_free_of Sprintf "--registry-mirror " dockerPort a e ->
      strings.Count (unit_file_spec Sprintf dockerPort a e)
        "--registry-mirror "
      = List.length (engine.RegistryMirror e)).
Proof.
  split; [|split]; intros Hfree.
  - count_pieces flag_word_label Hfree.
    change (strings.Count_from 0 _ "--label ") with 0. lia.
  - count_pieces flag_word_insecure_registry Hfree.
    change (strings.Count_from 0 _ "--insecure-registry ") with 0. lia.
  - count_pieces flag_word_registry_mirror Hfree.
    change (strings.Count_from 0 _ "--registry-mirror ") with 0. lia.
Qed.

(** ** The renderer *)

Section GenerateProperties.

Context {Cluster : Type}.

(** [GenerateDockerOptions] for any implementation of the library: the
    label is appended first, whatever happens next; the result is the
    error of [Parse], or else the text [Execute] wrote, with a nil error. *)
Lemma GenerateDockerOptions_run {T : TextTemplate} (dockerPort : Z)
  (st : State Cluster) :
  GenerateDockerOptions dockerPort st =
  (match Parse "engineConfig" engineConfigTmpl with
   | inr err => (None, Some err)
   | inl t =>
       (Some {| opt_EngineOptions :=
                  fst (Execute t (context_of dockerPort (labelled (self st))));
                opt_EngineOptionsPath := DaemonOptionsFile (self st) |},
        None)
   end,
   {| self := labelled (self st); calls := calls st |}).
Proof.
  unfold GenerateDockerOptions.
  cbv [bind ret get_self put_self fst snd self calls].
  destruct (Parse "engineConfig" engineConfigTmpl); reflexivity.
Qed.

(** With the library itself the result is the reference rendering of the
    options with the appended label, and there is no error. *)
Lemma GenerateDockerOptions_GoTemplate
  (Sprintf : string -> template.value -> string) (dockerPort : Z)
  (st : State Cluster) :
  GenerateDockerOptions (T := GoTemplate Sprintf) dockerPort st =
  ((Some {| opt_EngineOptions :=
              unit_file_spec Sprintf dockerPort (AuthOptions (self st))
                (EngineOptions (labelled (self st)));
            opt_EngineOptionsPath := DaemonOptionsFile (self st) |},
    None),
   {| self := labelled (self st); calls := calls st |}).
Proof.
  rewrite GenerateDockerOptions_run.
  change (@Parse (GoTemplate Sprintf)) with template.Parse.
  rewrite Parse_engineConfigTmpl.
  change (@Execute (GoTemplate Sprintf) engineConfig
            (context_of dockerPort (labelled (self st))))
    with (template.Execute Sprintf engineConfig
            (reflect_context (context_of dockerPort (labelled (self st))))).
  rewrite Execute_engineConfig. reflexivity.
Qed.

(** C7, as amended. For stored engine options with N labels, M insecure
    registries, K registry mirrors and J arbitrary flags, the unit file
    [GenerateDockerOptions] returns is the fixed head of the unit followed
    by N+1 "--label" flags (the N stored labels in their order, then the
    provider label), M "--insecure-registry" flags, K "--registry-mirror"
    flags and J arbitrary flags, each list in the order of the input list,
    followed by the fixed tail.  Read off the text: when no entry holds one
    of the three named flags, "--label " occurs N+1 times in the text,
    "--insecure-registry " M times and "--registry-mirror " K times. *)
Theorem GenerateDockerOptions_flags
  (Sprintf : string -> template.value -> string) (dockerPort : Z)
  (st : State Cluster) :
  let e := EngineOptions (self st) in
  let a := AuthOptions (self st) in
  let e' := EngineOptions (labelled (self st)) in
  exists (text : string) (labels registries mirrors arbitrary : list string),
    fst (GenerateDockerOptions (T := GoTemplate Sprintf) dockerPort st)
    = (Some {| opt_EngineOptions := text;
               opt_EngineOptionsPath := DaemonOptionsFile (self st) |}, None)
    /\ text
       = unit_file_head dockerPort a (engine.StorageDriver e)
         ++ String.concat "" labels ++ String.concat "" registries
         ++ String.concat "" mirrors ++ String.concat "" arbitrary
         ++ unit_file_tail Sprintf (engine.Env e)
    /\ labels
       = map (fun x => "--label " ++ x ++ " ")
           (engine.Labels e ++ [provider_label (self st)])
    /\ registries
       = map (fun x => "--insecure-registry " ++ x ++ " ")
           (engine.InsecureRegistry e)
    /\ mirrors
       = map (fun x => "--registry-mirror " ++ x ++ " ")
           (engine.RegistryMirror e)
    /\ arbitrary = map (fun x => "--" ++ x ++ " ") (engine.ArbitraryFlags e)
    /\ List.length labels = List.length (engine.Labels e) + 1
    /\ List.length registries = List.length (engine.InsecureRegistry e)
    /\ List.length mirrors = List.length (engine.RegistryMirror e)
    /\ List.length arbitrary = List.length (engine.ArbitraryFlags e)
    /\ (entries_free_of Sprintf "--label " dockerPort a e' ->
        strings.Count text "--label " = List.length (engine.Labels e) + 1)
    /\ (entries_free_of Sprintf "--insecure-registry " dockerPort a e' ->
        strings.Count text "--insecure-registry "
        = List.length (engine.InsecureRegistry e))
    /\ (entries_free_of Sprintf "--registry-mirror " dockerPort a e' ->
        strings.Count text "--registry-mirror "
        = List.length (engine.RegistryMirror e)).
Proof.
  intros e a e'. rewrite GenerateDockerOptions_GoTemplate.
  destruct (unit_file_spec_counts Sprintf dockerPort a e')
    as [Hlabel [Hregistry Hmirror]].
  do 5 eexists.
  split; [reflexivity|].
  split; [reflexivity|].
  do 4 (split; [reflexivity|]).
  unfold flags, e', labelled.
  cbn [EngineOptions set_EngineOptions engine.set_Labels engine.Labels
         engine.InsecureRegistry engine.RegistryMirror engine.ArbitraryFlags].
  rewrite !length_map, length_app. cbn [List.length].
  do 4 (split; [reflexivity|]).
  split; [|split].
  - intros Hfree.
    transitivity (List.length (engine.Labels (EngineOptions (labelled (self st)))));
      [exact (Hlabel Hfree)|].
    unfold labelled.
    cbn [EngineOptions set_EngineOptions engine.set_Labels engine.Labels].
    now rewrite length_app.
  - exact Hregistry.
  - exact Hmirror.
Qed.

(** C9. Whatever the template library does: an error returned by
    [GenerateDockerOptions] is the error of [Parse] on the fixed template;
    and when [Parse] succeeds and [Execute] fails, having written [text],
    [GenerateDockerOptions] returns [text] with a nil error. *)
Theorem GenerateDockerOptions_errors {T : TextTemplate} (dockerPort : Z)
  (st : State Cluster) :
  (forall err,
      snd (fst (GenerateDockerOptions dockerPort st)) = Some err ->
      Parse "engineConfig" engineConfigTmpl = inr err)
  /\ (forall t text err,
         Parse "engineConfig" engineConfigTmpl = inl t ->
         Execute t (context_of dockerPort (labelled (self st)))
         = (text, Some err) ->
         fst (GenerateDockerOptions dockerPort st)
         = (Some {| opt_EngineOptions := text;
                    opt_EngineOptionsPath := DaemonOptionsFile (self st) |},
            None)).
Proof.
  rewrite GenerateDockerOptions_run. split.
  - intros err. destruct (Parse "engineConfig" engineConfigTmpl) as [t|e];
      cbn [fst snd]; [discriminate | congruence].
  - intros t text err HParse HExecute. rewrite HParse, HExecute. reflexivity.
Qed.

(** With the library itself [GenerateDockerOptions] returns no error. *)
Lemma GenerateDockerOptions_no_error
  (Sprintf : string -> template.value -> string) (dockerPort : Z)
  (st : State Cluster) :
  snd (fst (GenerateDockerOptions (T := GoTemplate Sprintf) dockerPort st))
  = None.
Proof. now rewrite GenerateDockerOptions_GoTemplate. Qed.

(** [n] calls append [n] provider labels and change nothing else. *)
Lemma after_calls_self {T : TextTemplate} (dockerPort : nat -> Z) (n : nat)
  (st : State Cluster) :
  after_calls dockerPort n st =
  {| self :=
       set_EngineOptions (self st)
         (engine.set_Labels (EngineOptions (self st))
            (engine.Labels (EngineOptions (self st))
             ++ repeat (provider_label (self st)) n));
     calls := calls st |}.
Proof.
  induction n as [|n IH].
  - destruct st as [[d f a [af env ir l rm sd] s] c].
    cbn. now rewrite app_nil_r.
  - cbn [after_calls]. rewrite GenerateDockerOptions_run, IH.
    cbn [snd self calls]. unfold labelled, provider_label.
    cbn [set_EngineOptions engine.set_Labels EngineOptions engine.Labels
           Driver DaemonOptionsFile AuthOptions SwarmOptions
           engine.ArbitraryFlags engine.Env engine.InsecureRegistry
           engine.RegistryMirror engine.StorageDriver].
    rewrite <- app_assoc, <- repeat_cons. reflexivity.
Qed.

(** C10. Every call of [GenerateDockerOptions] appends the provider label
    to the stored labels before rendering: the state after a call differs
    from the state before; after [n] consecutive calls the stored labels
    are the initial ones followed by [n] provider labels; and the text of
    the next call, the call number [n + 1], is rendered from the initial
    labels followed by [n + 1] provider labels, so that it holds [n + 1]
    flags "--label provider=<driver-name> " more than the initial labels
    give; when no entry holds the flag itself, "--label " occurs in that
    text once per initial label and [n + 1] times more. *)
Theorem GenerateDockerOptions_appends_provider_label
  (Sprintf : string -> template.value -> string) (dockerPort : nat -> Z)
  (n : nat) (st : State Cluster) :
  let T := GoTemplate Sprintf in
  let provider := "provider=" ++ drivers.DriverName (Driver (self st)) in
  let labels := engine.Labels (EngineOptions (self st)) in
  let st_n := after_calls (T := T) dockerPort n st in
  engine.Labels (EngineOptions (self st_n)) = (labels ++ repeat provider n)%list
  /\ count_occ string_dec (engine.Labels (EngineOptions (self st_n))) provider
     = count_occ string_dec labels provider + n
  /\ engine.Labels
       (EngineOptions
          (self (snd (GenerateDockerOptions (T := T) (dockerPort n) st_n))))
     = (engine.Labels (EngineOptions (self st_n)) ++ [provider])%list
  /\ snd (GenerateDockerOptions (T := T) (dockerPort n) st_n) <> st_n
  /\ rendered (T := T) (dockerPort n) st_n
     = unit_file_spec Sprintf (dockerPort n) (AuthOptions (self st))
         (engine.set_Labels (EngineOptions (self st))
            (labels ++ repeat provider (S n))%list)
  /\ count_occ string_dec
       (flags "--label " (labels ++ repeat provider (S n))%list)
       ("--label " ++ provider ++ " ")
     = count_occ string_dec labels provider + S n
  /\ (entries_free_of Sprintf "--label " (dockerPort n) (AuthOptions (self st))
        (engine.set_Labels (EngineOptions (self st))
           (labels ++ repeat provider (S n))%list) ->
      strings.Count (rendered (T := T) (dockerPort n) st_n) "--label "
      = List.length labels + S n).
Proof.
  intros T provider labels st_n.
  assert (Hn : st_n =
               {| self :=
                    set_EngineOptions (self st)
                      (engine.set_Labels (EngineOptions (self st))
                         (labels ++ repeat provider n)%list);
                  calls := calls st |})
    by apply after_calls_self.
  assert (Hlabels : engine.Labels (EngineOptions (self st_n))
                    = (labels ++ repeat provider n)%list)
    by (rewrite Hn; reflexivity).
  assert (Hnext : engine.Labels
                    (EngineOptions
                       (self (snd (GenerateDockerOptions (T := T)
                                     (dockerPort n) st_n))))
                  = (engine.Labels (EngineOptions (self st_n)) ++ [provider])%list).
  { rewrite GenerateDockerOptions_run. rewrite Hn. reflexivity. }
  assert (Hrendered :
            rendered (T := T) (dockerPort n) st_n
            = unit_file_spec Sprintf (dockerPort n) (AuthOptions (self st))
                (engine.set_Labels (EngineOptions (self st))
                   (labels ++ repeat provider (S n))%list)).
  { unfold rendered. unfold T.
    rewrite GenerateDockerOptions_GoTemplate. cbn [fst opt_EngineOptions].
    rewrite Hn. unfold labelled, provider_label.
    cbn [set_EngineOptions engine.set_Labels EngineOptions engine.Labels
           Driver DaemonOptionsFile AuthOptions SwarmOptions self].
    rewrite <- app_assoc.
    change ("provider=" ++ drivers.DriverName (Driver (self st)))
      with provider.
    rewrite <- repeat_cons. reflexivity. }
  split; [exact Hlabels|].
  split; [|split; [exact Hnext|split; [|split; [exact Hrendered|split]]]].
  4:{ intros Hfree. rewrite Hrendered.
      rewrite (proj1 (unit_file_spec_counts Sprintf _ _ _) Hfree).
      cbn [engine.set_Labels engine.Labels].
      rewrite length_app, repeat_length. reflexivity. }
  3:{ unfold flags.
      rewrite <- (count_occ_map (fun x => "--label " ++ x ++ " ")
                    string_dec string_dec (flag_inj "--label ")).
      rewrite count_occ_app, count_occ_repeat_eq; reflexivity. }
  - rewrite Hlabels, count_occ_app, count_occ_repeat_eq; reflexivity.
  - intros Heq. rewrite Heq in Hnext.
    apply (f_equal (@List.length string)) in Hnext.
    rewrite length_app in Hnext. cbn [List.length] in Hnext. lia.
Qed.

End GenerateProperties.

(** ** The operations on the sample machine *)

(** The unit file of a machine without labels, registries, mirrors, flags
    and environment: the provider label is the one flag. *)
Example rendered_bare :
  rendered (T := GoTemplate sample.Sprintf) 2376
    (sample.fresh (sample.bare "overlay"))
  = "[Unit]
Description=Docker Application Container Engine
Documentation=http://docs.docker.com
After=network.target

[Service]
ExecStart=/usr/bin/docker -d -H tcp://0.0.0.0:2376 -H unix:///var/run/docker.sock --storage-driver overlay --tlsverify --tlscacert /etc/docker/ca.pem --tlscert /etc/docker/server.pem --tlskey /etc/docker/server-key.pem --label provider=virtualbox 
MountFlags=slave
LimitNOFILE=1048576
LimitNPROC=1048576
LimitCORE=infinity
Environment=

[Install]
WantedBy=multi-user.target
".
Proof. vm_compute. reflexivity. Qed.

(** With two labels, one insecure registry, one mirror and two arbitrary
    flags stored. *)
Example rendered_full_counts :
  let text :=
    rendered (T := GoTemplate sample.Sprintf) 2376 (sample.fresh sample.full) in
  strings.Count text "--label " = 3
  /\ strings.Count text "--insecure-registry " = 1
  /\ strings.Count text "--registry-mirror " = 1
  /\ strings.Contains text
       "--label tier=web --label zone=a --label provider=virtualbox --insecure-registry registry.local:5000 --registry-mirror https://mirror.local --debug --icc=false "
     = true.
Proof. vm_compute. repeat split. Qed.

(** Three calls in a row on the machine without labels. *)
Example three_calls :
  let st := after_calls (T := GoTemplate sample.Sprintf) (fun _ => 2376%Z) 2
              (sample.fresh (sample.bare "overlay")) in
  engine.Labels (EngineOptions (self st))
  = ["provider=virtualbox"; "provider=virtualbox"]
  /\ strings.Count (rendered (T := GoTemplate sample.Sprintf) 2376 st)
       "--label provider=virtualbox " = 3.
Proof. vm_compute. split; reflexivity. Qed.

Example Service_docker_start :
  issued (Service (sample.host (sample.answers "")) "docker" serviceaction.Start)
    (sample.fresh sample.full)
  = [ssh "sudo systemctl daemon-reload"; ssh "sudo systemctl start docker"].
Proof. reflexivity. Qed.

Example Service_docker_stop :
  issued (Service (sample.host (sample.answers "")) "docker" serviceaction.Stop)
    (sample.fresh sample.full)
  = [ssh "sudo systemctl stop docker"].
Proof. reflexivity. Qed.

(** [Package] runs the upgrade for the pair ("docker", Upgrade) and does
    nothing otherwise. *)
Example Package_docker_upgrade :
  issued (Package (sample.host (sample.upgraded "")) "docker" pkgaction.Upgrade)
    (sample.fresh sample.full)
  = [ssh "sudo atomic host upgrade"; ssh "sudo reboot"]
  /\ issued (Package (sample.host (sample.upgraded "")) "git" pkgaction.Upgrade)
       (sample.fresh sample.full) = []
  /\ issued (Package (sample.host (sample.upgraded "")) "docker"
               (pkgaction.Other 0))
       (sample.fresh sample.full) = [].
Proof. repeat split. Qed.

(** A whole provisioning run on a host whose helpers succeed. *)
Example Provision_run_sample :
  let m := sample.machine (engine.set_StorageDriver sample.full "overlay") in
  Provision (sample.host (sample.answers "")) sample.cluster sample.certs
    (engine.set_StorageDriver sample.full "")
    (sample.fresh (sample.bare "aufs"))
  = (None,
     {| self := m;
        calls :=
          [SetHostname_call m "dev"; makeDockerOptionsDir_call m;
           setRemoteAuthOptions_call m; ConfigureAuth_call m;
           configureSwarm_call m
             (swarm.set_Env sample.cluster (engine.Env sample.full))
             sample.certs] |}).
Proof. reflexivity. Qed.

(** ** The theorems on the sample machine *)

Lemma upgrade_command_failure_witness :
  let no_changes :=
    sample.host (sample.fails_on "sudo atomic host upgrade" "exit status 77") in
  let broken :=
    sample.host (sample.fails_on "sudo atomic host upgrade" "exit status 1") in
  let st := sample.fresh sample.full in
  fst (upgrade no_changes st) = None
  /\ count_command "sudo reboot" (issued (upgrade no_changes) st) = 0
  /\ fst (upgrade broken st) = Some "exit status 1"
  /\ count_command "sudo reboot" (issued (upgrade broken) st) = 0.
Proof.
  intros no_changes broken st.
  pose proof (upgrade_command_failure no_changes st "" "exit status 77"
                eq_refl) as [H77 [_ [_ Hreboot77]]].
  pose proof (upgrade_command_failure broken st "" "exit status 1"
                eq_refl) as [_ [H1 [_ Hreboot1]]].
  split; [exact (H77 eq_refl)|]. split; [exact Hreboot77|].
  split; [|exact Hreboot1].
  apply H1. discriminate.
Defined.

Lemma upgrade_no_upgrade_marker_witness :
  let out := "Updating from: fedora-atomic:fedora-atomic/f22/x86_64/docker-host
No upgrade available.
" in
  let h := sample.host (sample.answers out) in
  let st := sample.fresh sample.full in
  fst (upgrade h st) = None
  /\ issued (upgrade h) st = [ssh "sudo atomic host upgrade"]
  /\ count_command "sudo reboot" (issued (upgrade h) st) = 0.
Proof.
  intros out h st.
  apply (upgrade_no_upgrade_marker h st out eq_refl).
  exists "Updating from: fedora-atomic:fedora-atomic/f22/x86_64/docker-host
", "
".
  reflexivity.
Defined.

Lemma upgrade_reboots_once_witness :
  let out := "Copying /etc changes: 25 modified, 0 removed, 49 added" in
  let h := sample.host (sample.upgraded out) in
  let st := sample.fresh sample.full in
  fst (upgrade h st) = None
  /\ issued (upgrade h) st
     = [ssh "sudo atomic host upgrade"; ssh "sudo reboot"]
  /\ count_command "sudo reboot" (issued (upgrade h) st) = 1.
Proof.
  intros out h st.
  apply (upgrade_reboots_once h st out eq_refl) with (answer := ("", Some "EOF")).
  - intros Hmarker. apply Contains_occurs in Hmarker. discriminate Hmarker.
  - reflexivity.
Defined.

Lemma Service_commands_witness :
  let h := sample.host (sample.answers "") in
  let st := sample.fresh sample.full in
  issued (Service h "docker" serviceaction.Restart) st
  = [ssh "sudo systemctl daemon-reload"; ssh "sudo systemctl restart docker"].
Proof.
  intros h st.
  apply (proj1 (proj1 (Service_commands h st "docker") serviceaction.Restart
                  (or_intror eq_refl))).
  reflexivity.
Defined.

Lemma Service_reload_failure_witness :
  let h :=
    sample.host (sample.fails_on "sudo systemctl daemon-reload" "exit status 1") in
  let st := sample.fresh sample.full in
  fst (Service h "docker" serviceaction.Start st) = Some "exit status 1"
  /\ issued (Service h "docker" serviceaction.Start) st
     = [ssh "sudo systemctl daemon-reload"]
  /\ count_command "sudo systemctl start docker"
       (issued (Service h "docker" serviceaction.Start) st) = 0.
Proof.
  intros h st.
  apply (Service_reload_failure h st "docker" serviceaction.Start
           "exit status 1" (or_introl eq_refl) eq_refl).
Defined.

Lemma Provision_storage_driver_witness :
  let h := sample.host (sample.answers "") in
  let st := sample.fresh (sample.bare "aufs") in
  (exists p rest,
      issued (Provision h sample.cluster sample.certs (sample.bare "")) st
      = SetHostname_call p "dev" :: rest
      /\ p = sample.machine (sample.bare "overlay")
      /\ engine.StorageDriver (EngineOptions p) = "overlay")
  /\ fst (Provision h sample.cluster sample.certs (sample.bare "btrfs") st)
     = Some "Unsupported storage driver: btrfs"
  /\ issued (Provision h sample.cluster sample.certs (sample.bare "btrfs")) st
     = [].
Proof.
  intros h st. split.
  - exact (proj1 (Provision_storage_driver h st sample.cluster sample.certs
                    (sample.bare ""))
             eq_refl).
  - destruct (proj2 (Provision_storage_driver h st sample.cluster sample.certs
                       (sample.bare "btrfs")))
      as [Herr [Hcalls _]]; [discriminate | discriminate |].
    split; [exact Herr | exact Hcalls].
Defined.

Lemma Provision_swarm_environment_witness :
  let h := sample.host (sample.answers "") in
  let st := sample.fresh (sample.bare "aufs") in
  let handed := swarm.set_Env sample.cluster (engine.Env sample.full) in
  In (configureSwarm_call (sample.machine sample.full) handed sample.certs)
    (issued (Provision h sample.cluster sample.certs sample.full) st)
  /\ swarm.Env handed = ["HTTP_PROXY=http://proxy:3128"; "TMPDIR=/var/tmp"]
  /\ swarm.Env (SwarmOptions (sample.machine sample.full)) = ["SWARM=1"].
Proof.
  intros h st handed.
  assert (Hreached :
            In (configureSwarm_call (sample.machine sample.full) handed
                  sample.certs)
              (issued (Provision h sample.cluster sample.certs sample.full) st)).
  { do 4 right. left. reflexivity. }
  split; [exact Hreached|]. split; [|reflexivity].
  exact (proj1 (Provision_swarm_environment h st sample.cluster sample.certs
                  sample.full _ _ _ Hreached)).
Defined.

Lemma GenerateDockerOptions_errors_witness :
  let T := TemplateOn sample.Sprintf sample.reflect_without_env in
  let st := sample.fresh (sample.bare "overlay") in
  fst (GenerateDockerOptions (T := T) 2376 st)
  = (Some {| opt_EngineOptions :=
               "[Unit]
Description=Docker Application Container Engine
Documentation=http://docs.docker.com
After=network.target

[Service]
ExecStart=/usr/bin/docker -d -H tcp://0.0.0.0:2376 -H unix:///var/run/docker.sock --storage-driver overlay --tlsverify --tlscacert /etc/docker/ca.pem --tlscert /etc/docker/server.pem --tlskey /etc/docker/server-key.pem --label provider=virtualbox 
MountFlags=slave
LimitNOFILE=1048576
LimitNPROC=1048576
LimitCORE=infinity
Environment=";
             opt_EngineOptionsPath := "/etc/systemd/system/docker.service" |},
     None).
Proof.
  intros T st.
  apply (proj2 (GenerateDockerOptions_errors (T := T) 2376 st) engineConfig
           _ "can't evaluate field Env").
  - exact Parse_engineConfigTmpl.
  - vm_compute. reflexivity.
Defined.

Lemma GenerateDockerOptions_flags_witness :
  let st := sample.fresh sample.full in
  let text := rendered (T := GoTemplate sample.Sprintf) 2376 st in
  strings.Count text "--label " = 3
  /\ strings.Count text "--insecure-registry " = 1
  /\ strings.Count text "--registry-mirror " = 1.
Proof.
  intros st text.
  destruct (GenerateDockerOptions_flags sample.Sprintf 2376 st)
    as [text' [labels [registries [mirrors [arbitrary
         [Hrun [_ [_ [_ [_ [_ [_ [_ [_ [_ [Hlabel [Hregistry Hmirror]]]]]]]]]]]]]]]]].
  assert (Htext : text = text') by (unfold text, rendered; now rewrite Hrun).
  rewrite Htext.
  assert (Hfree : forall w,
             In w ["--label "; "--insecure-registry "; "--registry-mirror "] ->
             entries_free_of sample.Sprintf w 2376 (AuthOptions (self st))
               (EngineOptions (labelled (self st)))).
  { intros w [<- | [<- | [<- | []]]];
      (split; [reflexivity .. | | | | | ]; repeat constructor). }
  split; [|split].
  - apply Hlabel, Hfree. now left.
  - apply Hregistry, Hfree. right; now left.
  - apply Hmirror, Hfree. right; right; now left.
Defined.

Lemma GenerateDockerOptions_appends_provider_label_witness :
  let T := GoTemplate sample.Sprintf in
  let st := sample.fresh (sample.bare "overlay") in
  let st_2 := after_calls (T := T) (fun _ => 2376%Z) 2 st in
  engine.Labels (EngineOptions (self st_2))
  = ["provider=virtualbox"; "provider=virtualbox"]
  /\ strings.Count (rendered (T := T) 2376 st_2) "--label " = 3.
Proof.
  intros T st st_2.
  destruct (GenerateDockerOptions_appends_provider_label sample.Sprintf
              (fun _ => 2376%Z) 2 st)
    as [Hlabels [_ [_ [_ [_ [_ Hcount]]]]]].
  split; [exact Hlabels|].
  apply Hcount. split; [reflexivity .. | | | | | ]; repeat constructor.
Defined.

(** C7, as the claim states it, fails on a machine without stored labels:
    the text holds one "--label " flag, the provider label. *)
Lemma one_label_flag_per_stored_label_counterexample :
  ~ one_label_flag_per_stored_label sample.Sprintf 2376
      (sample.fresh (sample.bare "overlay")).
Proof. unfold one_label_flag_per_stored_label. vm_compute. discriminate. Qed.

(** ** Slices: stores through a header *)

Lemma length_replace {A : Type} (i : nat) (v : A) (l : list A) :
  List.length (slice.replace i v l) = List.length l.
Proof.
  revert i. induction l as [|x l IH]; intros [|i]; cbn; auto.
Qed.

Lemma nth_replace {A : Type} (i : nat) (v d : A) (l : list A) :
  i < List.length l -> nth i (slice.replace i v l) d = v.
Proof.
  revert i. induction l as [|x l IH]; intros [|i] H; cbn in *;
    try lia; [reflexivity | apply IH; lia].
Qed.

Lemma skipn_replace {A : Type} (n i : nat) (v : A) (l : list A) :
  skipn n (slice.replace (n + i) v l) = slice.replace i v (skipn n l).
Proof.
  revert l. induction n as [|n IH]; intros l; [reflexivity|].
  destruct l as [|x l]; [destruct i; reflexivity|]. cbn. apply IH.
Qed.

Lemma firstn_replace {A : Type} (n i : nat) (v : A) (l : list A) :
  i < n -> firstn n (slice.replace i v l) = slice.replace i v (firstn n l).
Proof.
  revert i l. induction n as [|n IH]; intros i l H; [lia|].
  destruct l as [|x l]; [destruct i; reflexivity|].
  destruct i as [|i]; cbn; [reflexivity|]. rewrite IH by lia. reflexivity.
Qed.

Lemma backing_replace (a k : nat) (v : string) (h : slice.Heap) :
  nth a (slice.replace a (slice.replace k v (nth a h [])) h) []
  = slice.replace k v (nth a h []).
Proof.
  destruct (Nat.lt_ge_cases a (List.length h)) as [H | H].
  - now apply nth_replace.
  - rewrite (nth_overflow h) by exact H.
    rewrite nth_overflow by (rewrite length_replace; exact H).
    destruct k; reflexivity.
Qed.

(** A store through a header is read back through every header equal to
    it: the element stored at [i] replaces the one that was there. *)
Lemma contents_store (h h' : slice.Heap) (s : slice.Slice) (i : nat)
  (v : string) :
  slice.store h s i v = Some h' ->
  slice.contents h' s = slice.replace i v (slice.contents h s).
Proof.
  unfold slice.store.
  destruct (Nat.ltb i (slice.len s)) eqn:Hi; [|discriminate].
  apply Nat.ltb_lt in Hi. intros H. injection H as <-.
  unfold slice.contents, slice.backing.
  rewrite backing_replace.
  rewrite skipn_replace, firstn_replace by exact Hi. reflexivity.
Qed.

(** ** [Provision] on slice headers: the swarm options handed over *)

Section SharedEnvironment.

Context {Cluster : Type}.
Variable host : mem.Host Cluster.

(** Closes a case of the run: the first call and the swarm call. *)
Ltac run_done :=
  right; do 2 eexists; split;
  [ rewrite <- ?app_assoc; rewrite skipn_length_app; cbn [app]; reflexivity
  | split; [reflexivity|]; split; [reflexivity|]; split; [reflexivity|];
    intros p s a HIn; cbn [In] in HIn;
    repeat match goal with
      | H : _ \/ _ |- _ => destruct H
      end; solve [contradiction | congruence] ].

(** The calls of a run: none when the storage driver is rejected;
    otherwise the hostname step first, on a provisioner that holds the
    swarm and certificate options as given and the environment header of
    the engine options, and the swarm step, when it is reached, with the
    caller's swarm options in which the environment header is the one of
    the engine options. *)
Lemma Provision_headers_calls (st : mem.State Cluster)
  (swarmOptions : mem.swarm.Options Cluster) (authOptions : auth.Options)
  (engineOptions : mem.engine.Options) :
  mem.issued (mem.Provision host swarmOptions authOptions engineOptions) st
  = []
  \/ exists p1 rest,
      mem.issued (mem.Provision host swarmOptions authOptions engineOptions) st
      = mem.SetHostname_call p1
          (drivers.GetMachineName (mem.Driver (mem.self st))) :: rest
      /\ mem.SwarmOptions p1 = swarmOptions
      /\ mem.AuthOptions p1 = authOptions
      /\ mem.engine.Env (mem.EngineOptions p1) = mem.engine.Env engineOptions
      /\ forall p s a,
          In (mem.configureSwarm_call p s a) rest ->
          s = mem.swarm.set_Env swarmOptions (mem.engine.Env engineOptions).
Proof.
  unfold mem.issued, mem.Provision.
  cbv [mem.bind mem.ret mem.get_self mem.put_self fst snd].
  cbn [mem.self mem.heap mem.calls mem.EngineOptions mem.set_SwarmOptions
         mem.set_AuthOptions mem.set_EngineOptions mem.Driver].
  destruct (mem.engine.StorageDriver engineOptions =? "") eqn:E1;
    [|destruct (mem.engine.StorageDriver engineOptions =? "overlay") eqn:E2;
      cbn [negb]].
  3:{ left. cbn [mem.calls]. apply skipn_all. }
  all: cbv [mem.SetHostname mem.makeDockerOptionsDir mem.setRemoteAuthOptions
              mem.ConfigureAuth mem.configureSwarm mem.call];
    cbn [mem.self mem.heap mem.calls fst snd];
    destruct (mem.run_SetHostname host _ _ _ _) as [p1 h1 [e1|]];
    cbn [mem.provisioner mem.memory mem.returned mem.self mem.heap mem.calls
           fst snd];
    [run_done|];
    destruct (mem.run_makeDockerOptionsDir host _ _ _) as [p2 h2 [e2|]];
    cbn [mem.provisioner mem.memory mem.returned mem.self mem.heap mem.calls
           fst snd];
    [run_done|];
    destruct (mem.run_setRemoteAuthOptions host _ _ _) as [p3 h3 a3];
    cbn [mem.provisioner mem.memory mem.returned mem.self mem.heap mem.calls
           fst snd];
    destruct (mem.run_ConfigureAuth host _ _ _) as [p4 h4 [e4|]];
    cbn [mem.provisioner mem.memory mem.returned mem.self mem.heap mem.calls
           fst snd];
    [run_done|];
    destruct (mem.run_configureSwarm host _ _ _ _ _) as [p5 h5 [e5|]];
    cbn [mem.provisioner mem.memory mem.returned mem.self mem.heap mem.calls
           fst snd];
    run_done.
Qed.

(** Opens a run: one goal for the rejected driver and one for each place
    where the steps can end, for each of the two accepted drivers. *)
Ltac open_run :=
  unfold mem.issued, mem.Provision;
  cbv [mem.bind mem.ret mem.get_self mem.put_self fst snd];
  cbn [mem.self mem.heap mem.calls mem.EngineOptions mem.set_SwarmOptions
         mem.set_AuthOptions mem.set_EngineOptions mem.Driver];
  destruct (mem.engine.StorageDriver _ =? "");
  [|destruct (mem.engine.StorageDriver _ =? "overlay"); cbn [negb]];
  cbv [mem.SetHostname mem.makeDockerOptionsDir mem.setRemoteAuthOptions
         mem.ConfigureAuth mem.configureSwarm mem.call];
  cbn [mem.self mem.heap mem.calls fst snd];
  try (destruct (mem.run_SetHostname host _ _ _ _) as [p1 h1 [e1|]] eqn:E1;
       cbn [mem.provisioner mem.memory mem.returned mem.self mem.heap
              mem.calls fst snd];
       [|destruct (mem.run_makeDockerOptionsDir host _ _ _)
           as [p2 h2 [e2|]] eqn:E2;
         cbn [mem.provisioner mem.memory mem.returned mem.self mem.heap
                mem.calls fst snd];
         [|destruct (mem.run_setRemoteAuthOptions host _ _ _)
             as [p3 h3 a3] eqn:E3;
           cbn [mem.provisioner mem.memory mem.returned mem.self mem.heap
                  mem.calls fst snd];
           destruct (mem.run_ConfigureAuth host _ _ _)
             as [p4 h4 [e4|]] eqn:E4;
           cbn [mem.provisioner mem.memory mem.returned mem.self mem.heap
                  mem.calls fst snd];
           [|destruct (mem.run_configureSwarm host _ _ _ _ _)
               as [p5 h5 [e5|]] eqn:E5;
             cbn [mem.provisioner mem.memory mem.returned mem.self mem.heap
                    mem.calls fst snd]]]]);
  rewrite <- ?app_assoc; rewrite ?skipn_length_app; rewrite ?skipn_all;
  cbn [app].

(** Brings in what the helpers of a run left of the swarm options. *)
Ltac kept K1 K2 K3 K4 K5 :=
  repeat match goal with
    | E : mem.run_SetHostname _ ?l ?h ?q ?n = _ |- _ =>
        let Q := fresh "Q" in
        pose proof (K1 l h q n) as Q; rewrite E in Q; clear E
    | E : mem.run_makeDockerOptionsDir _ ?l ?h ?q = _ |- _ =>
        let Q := fresh "Q" in
        pose proof (K2 l h q) as Q; rewrite E in Q; clear E
    | E : mem.run_setRemoteAuthOptions _ ?l ?h ?q = _ |- _ =>
        let Q := fresh "Q" in
        pose proof (K3 l h q) as Q; rewrite E in Q; clear E
    | E : mem.run_ConfigureAuth _ ?l ?h ?q = _ |- _ =>
        let Q := fresh "Q" in
        pose proof (K4 l h q) as Q; rewrite E in Q; clear E
    | E : mem.run_configureSwarm _ ?l ?h ?q ?s ?a = _ |- _ =>
        let Q := fresh "Q" in
        pose proof (K5 l h q s a) as Q; rewrite E in Q; clear E
    end;
  cbn in *.

(** [Provision] writes nothing back, before the hand-off: when the
    helpers leave the swarm options of the provisioner alone, the
    provisioner still holds the caller's swarm options when the swarm step
    is called. *)
Lemma Provision_headers_keeps_swarm_options (st : mem.State Cluster)
  (swarmOptions : mem.swarm.Options Cluster) (authOptions : auth.Options)
  (engineOptions : mem.engine.Options)
  (p : mem.AtomicHostProvisioner Cluster) (s : mem.swarm.Options Cluster)
  (a : auth.Options) :
  mem.keeps_swarm_options host ->
  In (mem.configureSwarm_call p s a)
    (mem.issued (mem.Provision host swarmOptions authOptions engineOptions)
       st) ->
  mem.SwarmOptions p = swarmOptions.
Proof.
  intros [K1 [K2 [K3 [K4 K5]]]].
  open_run; intros HIn; cbn [In] in HIn;
    repeat match goal with
      | H : _ \/ _ |- _ => destruct H
      end; try contradiction; try discriminate;
    match goal with
    | H : mem.configureSwarm_call _ _ _ = mem.configureSwarm_call _ _ _ |- _ =>
        injection H as <- _ _
    end;
    kept K1 K2 K3 K4 K5; congruence.
Qed.

(** [Provision] writes nothing back, after the hand-off either: under the
    same condition the provisioner holds the caller's swarm options when
    [Provision] returns, wherever it returns. *)
Lemma Provision_headers_stored_swarm_options (st : mem.State Cluster)
  (swarmOptions : mem.swarm.Options Cluster) (authOptions : auth.Options)
  (engineOptions : mem.engine.Options) :
  mem.keeps_swarm_options host ->
  mem.SwarmOptions
    (mem.self
       (snd (mem.Provision host swarmOptions authOptions engineOptions st)))
  = swarmOptions.
Proof.
  intros [K1 [K2 [K3 [K4 K5]]]].
  open_run; cbn [mem.self mem.SwarmOptions]; try reflexivity;
    kept K1 K2 K3 K4 K5; congruence.
Qed.

(** C8, as amended. Whenever [Provision] reaches the swarm-configuration
    step, the swarm options handed to [configureSwarm] are the caller's
    with the environment slice overwritten, on the local copy and before
    the call, by the environment slice of the engine options: the same
    header, hence the same list in every heap.  The overwrite is one-way
    as far as the structs go: the provisioner that the first helper sees
    holds the caller's swarm options and the environment header of the
    engine options, and when the helpers leave the swarm options of the
    provisioner alone it holds the caller's swarm options at the hand-off
    and when [Provision] returns.  The elements are not copied: what is
    stored through the environment slice handed over is read back through
    the environment slice of the engine options. *)
Theorem Provision_swarm_environment_shared (st : mem.State Cluster)
  (swarmOptions : mem.swarm.Options Cluster) (authOptions : auth.Options)
  (engineOptions : mem.engine.Options)
  (p : mem.AtomicHostProvisioner Cluster) (handed : mem.swarm.Options Cluster)
  (a : auth.Options)
  (Hreached :
     In (mem.configureSwarm_call p handed a)
       (mem.issued
          (mem.Provision host swarmOptions authOptions engineOptions) st)) :
  handed = mem.swarm.set_Env swarmOptions (mem.engine.Env engineOptions)
  /\ mem.swarm.Env handed = mem.engine.Env engineOptions
  /\ mem.swarm.Cluster_config handed = mem.swarm.Cluster_config swarmOptions
  /\ (forall h,
         slice.contents h (mem.swarm.Env handed)
         = slice.contents h (mem.engine.Env engineOptions))
  /\ (exists p1 rest,
         mem.issued
           (mem.Provision host swarmOptions authOptions engineOptions) st
         = mem.SetHostname_call p1
             (drivers.GetMachineName (mem.Driver (mem.self st))) :: rest
         /\ mem.SwarmOptions p1 = swarmOptions
         /\ mem.engine.Env (mem.EngineOptions p1)
            = mem.engine.Env engineOptions)
  /\ (mem.keeps_swarm_options host ->
      mem.SwarmOptions p = swarmOptions
      /\ mem.SwarmOptions
           (mem.self
              (snd (mem.Provision host swarmOptions authOptions
                      engineOptions st)))
         = swarmOptions)
  /\ (forall h h' i v,
         slice.store h (mem.swarm.Env handed) i v = Some h' ->
         slice.contents h' (mem.engine.Env engineOptions)
         = slice.replace i v
             (slice.contents h (mem.engine.Env engineOptions))).
Proof.
  destruct (Provision_headers_calls st swarmOptions authOptions engineOptions)
    as [Hnone | [p1 [rest [Hlog [Hswarm [_ [Henv Hhanded]]]]]]].
  - rewrite Hnone in Hreached. destruct Hreached.
  - assert (H : handed
                = mem.swarm.set_Env swarmOptions
                    (mem.engine.Env engineOptions)).
    { rewrite Hlog in Hreached. destruct Hreached as [Hhead | Hin].
      - discriminate Hhead.
      - exact (Hhanded _ _ _ Hin). }
    split; [exact H|].
    split; [rewrite H; reflexivity|].
    split; [rewrite H; reflexivity|].
    split; [rewrite H; reflexivity|].
    split; [exists p1, rest; repeat split; assumption|].
    split.
    + intros Hkeeps. split.
      * exact (Provision_headers_keeps_swarm_options st swarmOptions
                 authOptions engineOptions p handed a Hkeeps Hreached).
      * exact (Provision_headers_stored_swarm_options st swarmOptions
                 authOptions engineOptions Hkeeps).
    + intros h h' i v. rewrite H. cbn [mem.swarm.set_Env mem.swarm.Env].
      apply contents_store.
Qed.

End SharedEnvironment.

(** The helpers of the sample host leave the provisioner as it is. *)
Lemma shared_host_keeps_swarm_options (variable : string) :
  mem.keeps_swarm_options (shared.host variable).
Proof.
  repeat split; intros; cbn; try reflexivity.
  destruct (slice.store _ _ _ _); reflexivity.
Qed.

(** On the sample machine the swarm step is reached with the environment
    slice of the engine options, the provisioner keeps the swarm options
    of the caller, environment list included, and a store through the
    slice handed over shows in the environment list of the engine
    options. *)
Lemma Provision_swarm_environment_shared_witness :
  let host := shared.host "HTTP_PROXY=http://other:8080" in
  let engineOptions := shared.options "" in
  let handed := mem.swarm.set_Env shared.cluster shared.engine_env in
  let p := shared.machine (shared.options "overlay") in
  In (mem.configureSwarm_call p handed sample.certs)
    (mem.issued
       (mem.Provision host shared.cluster sample.certs engineOptions)
       shared.fresh)
  /\ slice.contents shared.heap (mem.swarm.Env handed)
     = ["HTTP_PROXY=http://proxy:3128"; "TMPDIR=/var/tmp"]
  /\ slice.contents shared.heap (mem.swarm.Env (mem.SwarmOptions p))
     = ["SWARM=1"]
  /\ (forall h',
         slice.store shared.heap (mem.swarm.Env handed) 0 "NO_PROXY=*"
         = Some h' ->
         slice.contents h' (mem.engine.Env engineOptions)
         = ["NO_PROXY=*"; "TMPDIR=/var/tmp"]).
Proof.
  intros host engineOptions handed p.
  assert (Hreached :
            In (mem.configureSwarm_call p handed sample.certs)
              (mem.issued
                 (mem.Provision host shared.cluster sample.certs
                    engineOptions) shared.fresh)).
  { do 4 right. left. reflexivity. }
  destruct (Provision_swarm_environment_shared host shared.fresh
              shared.cluster sample.certs engineOptions _ _ _ Hreached)
    as [_ [_ [_ [Hlist [_ [Hkept Hstore]]]]]].
  destruct (Hkept (shared_host_keeps_swarm_options _)) as [Hp _].
  split; [exact Hreached|]. split; [|split].
  - rewrite Hlist. reflexivity.
  - rewrite Hp. reflexivity.
  - intros h' H. rewrite (Hstore _ _ _ _ H). reflexivity.
Defined.

(** C8, as the claim states it, fails: on the sample machine the
    environment slice handed to the swarm step is the one of the engine
    options, and a variable stored through it replaces the first variable
    of the engine options. *)
Lemma swarm_Env_is_a_copy_counterexample :
  ~ swarm_Env_is_a_copy (shared.host "HTTP_PROXY=http://other:8080")
      shared.fresh shared.cluster sample.certs (shared.options "").
Proof.
  intros H.
  assert (Hreached :
            In (mem.configureSwarm_call
                  (shared.machine (shared.options "overlay"))
                  (mem.swarm.set_Env shared.cluster shared.engine_env)
                  sample.certs)
              (mem.issued
                 (mem.Provision (shared.host "HTTP_PROXY=http://other:8080")
                    shared.cluster sample.certs (shared.options ""))
                 shared.fresh)).
  { do 4 right. left. reflexivity. }
  specialize (H _ _ _ Hreached shared.heap _ 0 "NO_PROXY=*" eq_refl).
  vm_compute in H. discriminate H.
Qed.

(** The same on a run: the swarm step of the sample host stores one
    variable through the options it was handed, and after [Provision] the
    environment list of the engine options reads differently. *)
Lemma Provision_swarm_step_stores_into_engine_Env :
  let st :=
    snd (mem.Provision (shared.host "HTTP_PROXY=http://other:8080")
           shared.cluster sample.certs (shared.options "") shared.fresh) in
  slice.contents (mem.heap shared.fresh) (mem.engine.Env (shared.options ""))
  = ["HTTP_PROXY=http://proxy:3128"; "TMPDIR=/var/tmp"]
  /\ slice.contents (mem.heap st) (mem.engine.Env (shared.options ""))
     = ["HTTP_PROXY=http://other:8080"; "TMPDIR=/var/tmp"]
  /\ slice.contents (mem.heap st)
       (mem.swarm.Env (mem.SwarmOptions (mem.self st)))
     = ["SWARM=1"].
Proof. repeat split. Qed.

(** ** Further properties: the provisioning sequence, step by step *)

Section ProvisionSteps.

Context {Cluster : Type}.
Variable host : Host Cluster.

(** The steps in straight-line form: each helper is called with the log
    of the calls before it, and the first error ends the run. *)
Lemma Provision_steps_run (st : State Cluster)
  (swarmOptions : swarm.Options Cluster) :
  let name := drivers.GetMachineName (Driver (self st)) in
  let c1 := SetHostname_call (self st) name in
  let r1 := run_SetHostname host (calls st) (self st) name in
  let c2 := makeDockerOptionsDir_call (fst r1) in
  let r2 := run_makeDockerOptionsDir host (calls st ++ [c1]) (fst r1) in
  let c3 := setRemoteAuthOptions_call (fst r2) in
  let r3 := run_setRemoteAuthOptions host (calls st ++ [c1; c2]) (fst r2) in
  let p4 := set_AuthOptions (fst r3) (snd r3) in
  let c4 := ConfigureAuth_call p4 in
  let r4 := run_ConfigureAuth host (calls st ++ [c1; c2; c3]) p4 in
  let c5 := configureSwarm_call (fst r4) swarmOptions (AuthOptions (fst r4)) in
  let r5 := run_configureSwarm host (calls st ++ [c1; c2; c3; c4]) (fst r4)
              swarmOptions (AuthOptions (fst r4)) in
  Provision_steps host swarmOptions st =
  match snd r1 with
  | Some e => (Some e, {| self := fst r1; calls := calls st ++ [c1] |})
  | None =>
      match snd r2 with
      | Some e => (Some e, {| self := fst r2; calls := calls st ++ [c1; c2] |})
      | None =>
          match snd r4 with
          | Some e =>
              (Some e,
               {| self := fst r4; calls := calls st ++ [c1; c2; c3; c4] |})
          | None =>
              (snd r5,
               {| self := fst r5;
                  calls := calls st ++ [c1; c2; c3; c4; c5] |})
          end
      end
  end.
Proof.
  cbv zeta. unfold Provision_steps.
  cbv [bind ret get_self put_self].
  cbv [SetHostname makeDockerOptionsDir setRemoteAuthOptions ConfigureAuth
         configureSwarm].
  cbn [self calls fst snd].
  destruct (run_SetHostname host _ _ _) as [p1 [e1|]];
    cbn [fst snd self calls]; rewrite <- ?app_assoc; cbn [app];
    [reflexivity|].
  destruct (run_makeDockerOptionsDir host _ _) as [p2 [e2|]];
    cbn [fst snd self calls]; rewrite <- ?app_assoc; cbn [app];
    [reflexivity|].
  destruct (run_setRemoteAuthOptions host _ _) as [p3 a3];
    cbn [fst snd self calls]; rewrite <- ?app_assoc; cbn [app].
  destruct (run_ConfigureAuth host _ _) as [p4 [e4|]];
    cbn [fst snd self calls]; rewrite <- ?app_assoc; cbn [app];
    [reflexivity|].
  destruct (run_configureSwarm host _ _ _ _) as [p5 [e5|]];
    cbn [fst snd self calls]; rewrite <- ?app_assoc; cbn [app];
    reflexivity.
Qed.

(** With a supported storage driver [Provision] is its steps. *)
Lemma Provision_valid (st : State Cluster)
  (swarmOptions : swarm.Options Cluster) (authOptions : auth.Options)
  (engineOptions : engine.Options) :
  engine.StorageDriver engineOptions = ""
  \/ engine.StorageDriver engineOptions = "overlay" ->
  Provision host swarmOptions authOptions engineOptions st
  = Provision_steps host
      (swarm.set_Env swarmOptions (engine.Env engineOptions))
      (Provision_entry st swarmOptions authOptions engineOptions).
Proof.
  intros H. rewrite Provision_run. cbv zeta. unfold Provision_entry.
  destruct H as [H | H]; rewrite H; reflexivity.
Qed.

Lemma issued_Provision_valid (st : State Cluster)
  (swarmOptions : swarm.Options Cluster) (authOptions : auth.Options)
  (engineOptions : engine.Options) :
  engine.StorageDriver engineOptions = ""
  \/ engine.StorageDriver engineOptions = "overlay" ->
  issued (Provision host swarmOptions authOptions engineOptions) st
  = issued
      (Provision_steps host
         (swarm.set_Env swarmOptions (engine.Env engineOptions)))
      (Provision_entry st swarmOptions authOptions engineOptions).
Proof.
  intros H. unfold issued. now rewrite (Provision_valid _ _ _ _ H).
Qed.

Lemma issued_Provision_invalid (st : State Cluster)
  (swarmOptions : swarm.Options Cluster) (authOptions : auth.Options)
  (engineOptions : engine.Options) :
  engine.StorageDriver engineOptions <> "" ->
  engine.StorageDriver engineOptions <> "overlay" ->
  Provision host swarmOptions authOptions engineOptions st
  = (Some ("Unsupported storage driver: "
           ++ engine.StorageDriver engineOptions),
     {| self := stored (self st) swarmOptions authOptions engineOptions;
        calls := calls st |})
  /\ issued (Provision host swarmOptions authOptions engineOptions) st = [].
Proof.
  intros Hset Hother. apply String.eqb_neq in Hset, Hother.
  unfold issued. rewrite Provision_run. cbv zeta. rewrite Hset, Hother.
  split; [reflexivity|]. cbn [snd calls].
  rewrite <- (app_nil_r (calls st)) at 2. apply skipn_length_app.
Qed.

(** Opens the steps: one goal for each place where the run can end. *)
Ltac open_steps :=
  unfold issued; rewrite Provision_steps_run; cbv zeta;
  destruct (snd (run_SetHostname host _ _ _)) as [e1|] eqn:E1;
  [|destruct (snd (run_makeDockerOptionsDir host _ _)) as [e2|] eqn:E2;
    [|destruct (snd (run_ConfigureAuth host _ _)) as [e4|] eqn:E4;
      [|destruct (snd (run_configureSwarm host _ _ _ _)) as [e5|] eqn:E5]]];
  cbn [fst snd self calls]; rewrite ?skipn_length_app.

(** The steps of a run that returns nil. *)
Lemma Provision_steps_success (st : State Cluster)
  (swarmOptions : swarm.Options Cluster) :
  fst (Provision_steps host swarmOptions st) = None ->
  exists p2 p3 p4 p5,
    issued (Provision_steps host swarmOptions) st
    = [SetHostname_call (self st) (drivers.GetMachineName (Driver (self st)));
       makeDockerOptionsDir_call p2; setRemoteAuthOptions_call p3;
       ConfigureAuth_call p4;
       configureSwarm_call p5 swarmOptions (AuthOptions p5)].
Proof.
  open_steps; try discriminate. intros _. do 4 eexists. reflexivity.
Qed.

Lemma Provision_steps_order (st : State Cluster)
  (swarmOptions : swarm.Options Cluster) :
  exists rest,
    (map step_of (issued (Provision_steps host swarmOptions) st) ++ rest)%list
    = Provision_order.
Proof. open_steps; cbn [map step_of app]; eexists; reflexivity. Qed.

Lemma Provision_steps_last_answer (st : State Cluster)
  (swarmOptions : swarm.Options Cluster) :
  let log := issued (Provision_steps host swarmOptions) st in
  fst (Provision_steps host swarmOptions st)
  = answer_of host (calls st ++ removelast log) (last log (ssh ""))
  /\ forall i,
      S i < List.length log ->
      answer_of host (calls st ++ firstn i log) (nth i log (ssh "")) = None.
Proof.
  cbv zeta. open_steps; cbn [removelast last answer_of List.length];
    rewrite ?app_nil_r; (split; [congruence|]); intros i Hi;
    repeat (destruct i as [|i];
            [cbn [firstn nth answer_of]; rewrite ?app_nil_r; congruence|]);
    cbn [List.length] in Hi; lia.
Qed.

Lemma Provision_steps_auth (st : State Cluster)
  (swarmOptions : swarm.Options Cluster) (p : AtomicHostProvisioner Cluster) :
  In (ConfigureAuth_call p) (issued (Provision_steps host swarmOptions) st) ->
  exists before p3,
    In (setRemoteAuthOptions_call p3)
      (issued (Provision_steps host swarmOptions) st)
    /\ p = set_AuthOptions
             (fst (run_setRemoteAuthOptions host before p3))
             (snd (run_setRemoteAuthOptions host before p3)).
Proof.
  open_steps; cbn [In]; intros H;
    repeat match goal with
      | H : _ \/ _ |- _ => destruct H
      end; try contradiction; try discriminate;
    match goal with
    | H : ConfigureAuth_call _ = ConfigureAuth_call _ |- _ =>
        injection H as <-
    end;
    do 2 eexists; (split; [do 2 right; left; reflexivity | reflexivity]).
Qed.

Lemma Provision_steps_auth_failure (st : State Cluster)
  (swarmOptions : swarm.Options Cluster) :
  (forall before p, snd (run_ConfigureAuth host before p) <> None) ->
  fst (Provision_steps host swarmOptions st) <> None
  /\ forall p s a,
      ~ In (configureSwarm_call p s a)
          (issued (Provision_steps host swarmOptions) st).
Proof.
  intros Hfail. open_steps;
    try (exfalso; exact (Hfail _ _ E4));
    (split; [discriminate|]); intros p s a H; cbn [In] in H;
    repeat match goal with
      | H : _ \/ _ |- _ => destruct H
      end; try contradiction; discriminate.
Qed.

End ProvisionSteps.

(** ** Further properties of [Provision] *)

Section ProvisionMore.

Context {Cluster : Type}.
Variable host : Host Cluster.

Lemma StorageDriver_cases (e : engine.Options) :
  (engine.StorageDriver e = "" \/ engine.StorageDriver e = "overlay")
  \/ (engine.StorageDriver e <> "" /\ engine.StorageDriver e <> "overlay").
Proof.
  destruct (string_dec (engine.StorageDriver e) "");
    destruct (string_dec (engine.StorageDriver e) "overlay"); tauto.
Qed.

(** X1. A run of [Provision] that returns nil has made exactly five calls:
    the hostname step, the options directory, the remote certificate
    paths, the certificates and the swarm, in this order; the swarm step
    receives the certificate options the provisioner holds at that
    moment. *)
Theorem Provision_success_runs_all_steps (st : State Cluster)
  (swarmOptions : swarm.Options Cluster) (authOptions : auth.Options)
  (engineOptions : engine.Options)
  (Hnil : fst (Provision host swarmOptions authOptions engineOptions st)
          = None) :
  exists p1 p2 p3 p4 p5,
    issued (Provision host swarmOptions authOptions engineOptions) st
    = [SetHostname_call p1 (drivers.GetMachineName (Driver (self st)));
       makeDockerOptionsDir_call p2; setRemoteAuthOptions_call p3;
       ConfigureAuth_call p4;
       configureSwarm_call p5
         (swarm.set_Env swarmOptions (engine.Env engineOptions))
         (AuthOptions p5)].
Proof.
  destruct (StorageDriver_cases engineOptions) as [Hvalid | [Hset Hother]].
  - rewrite (issued_Provision_valid host _ _ _ _ Hvalid).
    rewrite (Provision_valid host _ _ _ _ Hvalid) in Hnil.
    destruct (Provision_steps_success host _ _ Hnil)
      as [p2 [p3 [p4 [p5 H]]]].
    rewrite H. do 5 eexists. reflexivity.
  - destruct (issued_Provision_invalid host st swarmOptions authOptions
                engineOptions Hset Hother) as [Hrun _].
    rewrite Hrun in Hnil. discriminate Hnil.
Qed.

(** X2. Whatever the helpers answer, the calls of [Provision] are a
    beginning of the sequence hostname, options directory, remote
    certificate paths, certificates, swarm: no step is skipped, repeated or
    made out of order, and [Provision] issues no SSH command of its own. *)
Theorem Provision_steps_in_order (st : State Cluster)
  (swarmOptions : swarm.Options Cluster) (authOptions : auth.Options)
  (engineOptions : engine.Options) :
  exists rest,
    (map step_of
       (issued (Provision host swarmOptions authOptions engineOptions) st)
     ++ rest)%list
    = Provision_order.
Proof.
  destruct (StorageDriver_cases engineOptions) as [Hvalid | [Hset Hother]].
  - rewrite (issued_Provision_valid host _ _ _ _ Hvalid).
    apply Provision_steps_order.
  - destruct (issued_Provision_invalid host st swarmOptions authOptions
                engineOptions Hset Hother) as [_ Hlog].
    rewrite Hlog. eexists. reflexivity.
Qed.

(** X3. With a supported storage driver, [Provision] returns what its
    last call answered, an error or nil, and every call before the last
    one answered nil: the first error ends the run and is the result. *)
Theorem Provision_fail_fast (st : State Cluster)
  (swarmOptions : swarm.Options Cluster) (authOptions : auth.Options)
  (engineOptions : engine.Options)
  (Hvalid : engine.StorageDriver engineOptions = ""
            \/ engine.StorageDriver engineOptions = "overlay") :
  let log := issued (Provision host swarmOptions authOptions engineOptions) st in
  fst (Provision host swarmOptions authOptions engineOptions st)
  = answer_of host (calls st ++ removelast log) (last log (ssh ""))
  /\ forall i,
      S i < List.length log ->
      answer_of host (calls st ++ firstn i log) (nth i log (ssh "")) = None.
Proof.
  cbv zeta. rewrite (issued_Provision_valid host _ _ _ _ Hvalid).
  rewrite (Provision_valid host _ _ _ _ Hvalid).
  exact (Provision_steps_last_answer host
           (Provision_entry st swarmOptions authOptions engineOptions) _).
Qed.

(** X4. On a host where [ConfigureAuth] fails, [Provision] returns an
    error and [configureSwarm] is never called. *)
Theorem Provision_auth_failure_skips_swarm (st : State Cluster)
  (swarmOptions : swarm.Options Cluster) (authOptions : auth.Options)
  (engineOptions : engine.Options)
  (Hfail : forall before p, snd (run_ConfigureAuth host before p) <> None) :
  fst (Provision host swarmOptions authOptions engineOptions st) <> None
  /\ forall p s a,
      ~ In (configureSwarm_call p s a)
          (issued (Provision host swarmOptions authOptions engineOptions) st).
Proof.
  destruct (StorageDriver_cases engineOptions) as [Hvalid | [Hset Hother]].
  - rewrite (issued_Provision_valid host _ _ _ _ Hvalid).
    rewrite (Provision_valid host _ _ _ _ Hvalid).
    exact (Provision_steps_auth_failure host _ _ Hfail).
  - destruct (issued_Provision_invalid host st swarmOptions authOptions
                engineOptions Hset Hother) as [Hrun Hlog].
    rewrite Hrun, Hlog. split; [discriminate|]. intros p s a [].
Qed.

(** X5. With the storage driver "overlay" [Provision] goes on to the
    hostname step with the three arguments stored as they were given: the
    engine options are not touched. *)
Theorem Provision_overlay_kept (st : State Cluster)
  (swarmOptions : swarm.Options Cluster) (authOptions : auth.Options)
  (engineOptions : engine.Options)
  (Hoverlay : engine.StorageDriver engineOptions = "overlay") :
  exists p rest,
    issued (Provision host swarmOptions authOptions engineOptions) st
    = SetHostname_call p (drivers.GetMachineName (Driver (self st))) :: rest
    /\ EngineOptions p = engineOptions
    /\ AuthOptions p = authOptions
    /\ SwarmOptions p = swarmOptions.
Proof.
  rewrite (issued_Provision_valid host _ _ _ _ (or_intror Hoverlay)).
  destruct (Provision_steps_issued host
              (Provision_entry st swarmOptions authOptions engineOptions)
              (swarm.set_Env swarmOptions (engine.Env engineOptions)))
    as [rest [Hrest _]].
  rewrite Hrest. do 2 eexists. split; [reflexivity|].
  unfold Provision_entry. rewrite Hoverlay. repeat split.
Qed.

(** X6. When the storage driver is rejected the provisioner has already
    taken the three arguments: its swarm, certificate and engine options
    are the ones given, the rejected driver included, and the environment
    list of its swarm options is the caller's own. *)
Theorem Provision_rejected_driver_is_stored (st : State Cluster)
  (swarmOptions : swarm.Options Cluster) (authOptions : auth.Options)
  (engineOptions : engine.Options)
  (Hset : engine.StorageDriver engineOptions <> "")
  (Hother : engine.StorageDriver engineOptions <> "overlay") :
  let p := self (snd (Provision host swarmOptions authOptions engineOptions st)) in
  SwarmOptions p = swarmOptions
  /\ AuthOptions p = authOptions
  /\ EngineOptions p = engineOptions
  /\ Driver p = Driver (self st)
  /\ DaemonOptionsFile p = DaemonOptionsFile (self st).
Proof.
  cbv zeta.
  destruct (issued_Provision_invalid host st swarmOptions authOptions
              engineOptions Hset Hother) as [Hrun _].
  rewrite Hrun. repeat split.
Qed.

(** X7. The provisioner [ConfigureAuth] receives carries the certificate
    options that [setRemoteAuthOptions] returned just before, in place of
    the ones given to [Provision]. *)
Theorem Provision_auth_sees_remote_options (st : State Cluster)
  (swarmOptions : swarm.Options Cluster) (authOptions : auth.Options)
  (engineOptions : engine.Options) (p : AtomicHostProvisioner Cluster)
  (Hcall :
     In (ConfigureAuth_call p)
       (issued (Provision host swarmOptions authOptions engineOptions) st)) :
  exists before p3,
    In (setRemoteAuthOptions_call p3)
      (issued (Provision host swarmOptions authOptions engineOptions) st)
    /\ AuthOptions p = snd (run_setRemoteAuthOptions host before p3)
    /\ p = set_AuthOptions (fst (run_setRemoteAuthOptions host before p3))
             (AuthOptions p).
Proof.
  destruct (StorageDriver_cases engineOptions) as [Hvalid | [Hset Hother]].
  - rewrite (issued_Provision_valid host _ _ _ _ Hvalid) in *.
    destruct (Provision_steps_auth host _ _ _ Hcall)
      as [before [p3 [Hin Hp]]].
    exists before, p3. split; [exact Hin|]. rewrite Hp. split; reflexivity.
  - destruct (issued_Provision_invalid host st swarmOptions authOptions
                engineOptions Hset Hother) as [_ Hlog].
    rewrite Hlog in Hcall. destruct Hcall.
Qed.

(** Helpers that keep the engine options keep them through the steps. *)
Lemma Provision_steps_keep_engine_options (st : State Cluster)
  (swarmOptions : swarm.Options Cluster) :
  keeps_engine_options host ->
  EngineOptions (self (snd (Provision_steps host swarmOptions st)))
  = EngineOptions (self st).
Proof.
  intros [H1 [H2 [H3 [H4 H5]]]].
  rewrite Provision_steps_run; cbv zeta;
  destruct (snd (run_SetHostname host _ _ _)) as [e1|];
  [|destruct (snd (run_makeDockerOptionsDir host _ _)) as [e2|];
    [|destruct (snd (run_ConfigureAuth host _ _)) as [e4|]]];
  cbn [fst snd self calls];
  rewrite ?H5, ?H4; cbn [set_AuthOptions EngineOptions];
  rewrite ?H3, ?H2, ?H1; reflexivity.
Qed.

(** X8. On a host whose helpers leave the engine options alone, after a
    run of [Provision] that returns nil the stored storage driver is
    "overlay" and the other engine options are the ones given; the unit
    file rendered next names that driver and carries the given labels
    followed by the provider label. *)
Theorem Provision_then_render
  (Sprintf : string -> template.value -> string) (dockerPort : Z)
  (st : State Cluster)
  (swarmOptions : swarm.Options Cluster) (authOptions : auth.Options)
  (engineOptions : engine.Options)
  (Hkeep : keeps_engine_options host)
  (Hnil : fst (Provision host swarmOptions authOptions engineOptions st)
          = None) :
  let st' := snd (Provision host swarmOptions authOptions engineOptions st) in
  EngineOptions (self st') = engine.set_StorageDriver engineOptions "overlay"
  /\ rendered (T := GoTemplate Sprintf) dockerPort st'
     = unit_file_spec Sprintf dockerPort (AuthOptions (self st'))
         (engine.set_Labels
            (engine.set_StorageDriver engineOptions "overlay")
            (engine.Labels engineOptions ++ [provider_label (self st')])).
Proof.
  cbv zeta.
  assert (He : EngineOptions
                 (self (snd (Provision host swarmOptions authOptions
                               engineOptions st)))
               = engine.set_StorageDriver engineOptions "overlay").
  { destruct (StorageDriver_cases engineOptions) as [Hvalid | [Hset Hother]].
    - rewrite (Provision_valid host _ _ _ _ Hvalid).
      rewrite (Provision_steps_keep_engine_options _ _ Hkeep).
      unfold Provision_entry. cbn [self EngineOptions set_EngineOptions].
      destruct Hvalid as [H | H]; rewrite H; [reflexivity|].
      destruct engineOptions as [af env ir l rm sd]. cbn in H. subst sd.
      reflexivity.
    - destruct (issued_Provision_invalid host st swarmOptions authOptions
                  engineOptions Hset Hother) as [Hrun _].
      rewrite Hrun in Hnil. discriminate Hnil. }
  split; [exact He|].
  unfold rendered. rewrite GenerateDockerOptions_GoTemplate.
  cbn [fst opt_EngineOptions]. unfold labelled.
  cbn [EngineOptions set_EngineOptions]. rewrite He. reflexivity.
Qed.

End ProvisionMore.

(** ** Further properties of [upgrade], [Package] and [Service] *)

Section CommandsMore.

Context {Cluster : Type}.
Variable host : Host Cluster.

(** A run of [upgrade] on a host that reports nothing to upgrade. *)
Lemma upgrade_nothing_to_upgrade (st : State Cluster) :
  nothing_to_upgrade host (calls st) ->
  upgrade host st = (None, after_upgrade st).
Proof.
  unfold nothing_to_upgrade. cbv zeta. intros H.
  rewrite upgrade_run. unfold upgrade_answer.
  destruct H as [H | [H Hmarker]]; rewrite H; [reflexivity|].
  now rewrite Hmarker.
Qed.

(** X9. As long as the host reports nothing to upgrade, by the exit status
    or in the output, any number of runs of [upgrade] in a row all return
    nil, leave the provisioner as it is, and issue the upgrade command
    once each and never a reboot. *)
Theorem upgrade_runs_nothing_to_upgrade (n : nat) (st : State Cluster)
  (Hnothing :
     forall k, k < n ->
       nothing_to_upgrade host
         (calls st ++ repeat (ssh "sudo atomic host upgrade") k)) :
  (forall k, k < n -> fst (upgrade host (upgrade_runs host k st)) = None)
  /\ upgrade_runs host n st
     = {| self := self st;
          calls := calls st ++ repeat (ssh "sudo atomic host upgrade") n |}
  /\ count_command "sudo reboot" (calls (upgrade_runs host n st))
     = count_command "sudo reboot" (calls st).
Proof.
  assert (Hruns : forall k, k <= n ->
            upgrade_runs host k st
            = {| self := self st;
                 calls := calls st
                          ++ repeat (ssh "sudo atomic host upgrade") k |}).
  { induction k as [|k IH]; intros Hk.
    - cbn. rewrite app_nil_r. now destruct st.
    - cbn [upgrade_runs]. rewrite IH by lia.
      rewrite upgrade_nothing_to_upgrade by (apply Hnothing; lia).
      unfold after_upgrade. cbn [snd self calls].
      rewrite <- app_assoc, <- repeat_cons. reflexivity. }
  split; [|split].
  - intros k Hk. rewrite Hruns by lia.
    rewrite upgrade_nothing_to_upgrade by (apply Hnothing; lia).
    reflexivity.
  - apply Hruns. lia.
  - rewrite Hruns by lia. cbn [calls]. unfold count_command.
    rewrite filter_app, length_app.
    replace (filter (is_command "sudo reboot")
               (repeat (ssh "sudo atomic host upgrade") n))
      with (@nil (Call Cluster)); [cbn; lia|].
    clear. induction n as [|n IH]; [reflexivity|]. cbn. exact IH.
Qed.

Lemma pkgaction_eqb_Upgrade (action : pkgaction.PackageAction) :
  pkgaction.eqb action pkgaction.Upgrade = true <-> action = pkgaction.Upgrade.
Proof. destruct action; cbn; split; congruence. Qed.

(** X10. [Package] for any package other than "docker", or for any action
    other than [Upgrade], returns nil without a call and leaves the state
    as it is: nothing is installed, removed or upgraded. *)
Theorem Package_other_does_nothing (st : State Cluster) (name : string)
  (action : pkgaction.PackageAction)
  (Hother : name <> "docker" \/ action <> pkgaction.Upgrade) :
  Package host name action st = (None, st)
  /\ issued (Package host name action) st = [].
Proof.
  assert (Hrun : Package host name action st = (None, st)).
  { unfold Package.
    destruct ((name =? "docker") && pkgaction.eqb action pkgaction.Upgrade)
      eqn:E; [|reflexivity].
    apply andb_true_iff in E. destruct E as [E1 E2].
    apply String.eqb_eq in E1. apply pkgaction_eqb_Upgrade in E2.
    destruct Hother; contradiction. }
  split; [exact Hrun|]. unfold issued. rewrite Hrun. cbn [snd].
  rewrite <- (app_nil_r (calls st)) at 2. apply skipn_length_app.
Qed.

(** X11. Whatever the package and the action, the only commands [Package]
    ever issues are the upgrade command and the reboot command, and it
    leaves the provisioner as it is. *)
Theorem Package_commands (st : State Cluster) (name : string)
  (action : pkgaction.PackageAction) :
  (forall c,
      In c (issued (Package host name action) st) ->
      c = ssh "sudo atomic host upgrade" \/ c = ssh "sudo reboot")
  /\ self (snd (Package host name action st)) = self st.
Proof.
  unfold issued, Package.
  destruct ((name =? "docker") && pkgaction.eqb action pkgaction.Upgrade).
  - rewrite upgrade_run. unfold after_upgrade.
    destruct (snd (upgrade_answer host st)) as [err|];
      [|destruct (strings.Contains _ _)];
      cbn [snd self calls]; rewrite <- ?app_assoc, skipn_length_app;
      (split; [|reflexivity]); cbn [app In]; intros c H;
      intuition (subst; auto).
  - unfold ret. cbn [snd]. rewrite skipn_all.
    split; [intros c []|reflexivity].
Qed.

(** X12. When no reload is needed, or the reload succeeded, [Service]
    returns what the action command answered: its error as it is, nil
    when it succeeded. *)
Theorem Service_action_result (st : State Cluster) (name : string)
  (action : serviceaction.ServiceAction) (out : string) (err : option error)
  (Hreload : reloads action = true -> reload_error host st = None)
  (Haction :
     run_SSHCommand host
       (calls st
        ++ (if reloads action
            then [ssh "sudo systemctl daemon-reload"] else []))
       (action_command host name action)
     = (out, err)) :
  fst (Service host name action st) = err.
Proof.
  rewrite Service_run. destruct (reloads action).
  - rewrite (Hreload eq_refl). cbn [fst]. now rewrite Haction.
  - rewrite app_nil_r in Haction. cbn [fst]. now rewrite Haction.
Qed.

(** X13. For every action, the listed ones and any other: [Service] issues
    the daemon-reload command once for [Start] and [Restart] and never
    otherwise; it issues the action command once, except after a failed
    reload; and it leaves the provisioner as it is. *)
Theorem Service_command_counts (st : State Cluster) (name : string)
  (action : serviceaction.ServiceAction) :
  count_command "sudo systemctl daemon-reload"
    (issued (Service host name action) st)
  = (if reloads action then 1 else 0)
  /\ count_command (action_command host name action)
       (issued (Service host name action) st)
     = (if reloads action
        then match reload_error host st with None => 1 | Some _ => 0 end
        else 1)
  /\ self (snd (Service host name action st)) = self st.
Proof.
  pose proof (action_command_not_reload host name action) as Hne.
  assert (H1 : (action_command host name action
                =? "sudo systemctl daemon-reload") = false)
    by now apply String.eqb_neq.
  assert (H2 : ("sudo systemctl daemon-reload"
                =? action_command host name action) = false)
    by (apply String.eqb_neq; congruence).
  rewrite Service_issued, Service_run. unfold count_command, ssh.
  destruct (reloads action); [destruct (reload_error host st)|];
    cbn [filter is_command snd self];
    rewrite ?H1, ?H2, ?String.eqb_refl; repeat split.
Qed.

End CommandsMore.

(** ** Further properties of [GenerateDockerOptions] *)

Section GenerateMore.

Context {Cluster : Type}.

(** X14. Whatever the template library does, and also when an error is
    returned, a call of [GenerateDockerOptions] issues no remote command
    and changes the provisioner in one place only: the provider label is
    appended to the stored labels. *)
Theorem GenerateDockerOptions_frame {T : TextTemplate} (dockerPort : Z)
  (st : State Cluster) :
  let p := self st in
  let p' := self (snd (GenerateDockerOptions dockerPort st)) in
  issued (GenerateDockerOptions dockerPort) st = []
  /\ Driver p' = Driver p
  /\ DaemonOptionsFile p' = DaemonOptionsFile p
  /\ AuthOptions p' = AuthOptions p
  /\ SwarmOptions p' = SwarmOptions p
  /\ engine.ArbitraryFlags (EngineOptions p')
     = engine.ArbitraryFlags (EngineOptions p)
  /\ engine.Env (EngineOptions p') = engine.Env (EngineOptions p)
  /\ engine.InsecureRegistry (EngineOptions p')
     = engine.InsecureRegistry (EngineOptions p)
  /\ engine.RegistryMirror (EngineOptions p')
     = engine.RegistryMirror (EngineOptions p)
  /\ engine.StorageDriver (EngineOptions p')
     = engine.StorageDriver (EngineOptions p)
  /\ engine.Labels (EngineOptions p')
     = (engine.Labels (EngineOptions p)
        ++ [("provider=" ++ drivers.DriverName (Driver p))%string])%list.
Proof.
  cbv zeta. unfold issued. rewrite GenerateDockerOptions_run.
  cbn [snd self calls]. split; [|repeat split].
  rewrite <- (app_nil_r (calls st)) at 2. apply skipn_length_app.
Qed.

Lemma Contains_append_l (a s w : string) :
  strings.Contains s w = true -> strings.Contains (a ++ s) w = true.
Proof.
  rewrite !Contains_occurs. intros [pre [post ->]].
  exists (a ++ pre), post. now rewrite append_assoc.
Qed.

Lemma Contains_append_r (s b w : string) :
  strings.Contains s w = true -> strings.Contains (s ++ b) w = true.
Proof.
  rewrite !Contains_occurs. intros [pre [post ->]].
  exists pre, (post ++ b). now rewrite !append_assoc.
Qed.

Lemma Contains_self (w : string) : strings.Contains w w = true.
Proof.
  apply Contains_occurs. exists "", "". cbn. now rewrite append_nil_r.
Qed.

(** The segment of an entry occurs in the segments of its list. *)
Lemma Contains_segment (f : string -> string) (l : list string) (x : string) :
  In x l -> strings.Contains (String.concat "" (map f l)) (f x) = true.
Proof.
  induction l as [|y l IH]; intros H; [destruct H|].
  cbn [map]. rewrite concat_cons. destruct H as [-> | H].
  - apply Contains_append_r, Contains_self.
  - apply Contains_append_l, IH, H.
Qed.

(** X15. The unit file [GenerateDockerOptions] returns holds every stored
    entry as its flag: "--label <l> " for each stored label and for the
    provider label, "--insecure-registry <r> " for each insecure registry,
    "--registry-mirror <m> " for each mirror, "--<f> " for each arbitrary
    flag, and each environment variable as it is quoted. *)
Theorem GenerateDockerOptions_renders_every_entry
  (Sprintf : string -> template.value -> string) (dockerPort : Z)
  (st : State Cluster) :
  let e := EngineOptions (self st) in
  let text := rendered (T := GoTemplate Sprintf) dockerPort st in
  (forall l, In l (engine.Labels e) ->
             strings.Contains text ("--label " ++ l ++ " ") = true)
  /\ strings.Contains text
       ("--label provider=" ++ drivers.DriverName (Driver (self st)) ++ " ")
     = true
  /\ (forall r, In r (engine.InsecureRegistry e) ->
                strings.Contains text ("--insecure-registry " ++ r ++ " ")
                = true)
  /\ (forall m, In m (engine.RegistryMirror e) ->
                strings.Contains text ("--registry-mirror " ++ m ++ " ") = true)
  /\ (forall f, In f (engine.ArbitraryFlags e) ->
                strings.Contains text ("--" ++ f ++ " ") = true)
  /\ (forall x, In x (engine.Env e) ->
                strings.Contains text
                  (Sprintf "%q" (template.VString x) ++ " ") = true).
Proof.
  cbv zeta. unfold rendered. rewrite GenerateDockerOptions_GoTemplate.
  cbn [fst opt_EngineOptions].
  unfold unit_file_spec, unit_file_tail, flags, quoted, labelled,
    provider_label.
  cbn [EngineOptions set_EngineOptions engine.set_Labels engine.Labels
         engine.InsecureRegistry engine.RegistryMirror engine.ArbitraryFlags
         engine.Env engine.StorageDriver].
  split; [|split; [|split; [|split; [|split]]]].
  - intros l Hl. apply Contains_append_l, Contains_append_r.
    apply (Contains_segment (fun x => "--label " ++ x ++ " ")).
    apply in_or_app. now left.
  - apply Contains_append_l, Contains_append_r.
    apply (Contains_segment (fun x => "--label " ++ x ++ " ") _
             ("provider=" ++ drivers.DriverName (Driver (self st)))).
    apply in_or_app. right. now left.
  - intros r Hr. do 2 apply Contains_append_l. apply Contains_append_r.
    now apply (Contains_segment (fun x => "--insecure-registry " ++ x ++ " ")).
  - intros m Hm. do 3 apply Contains_append_l. apply Contains_append_r.
    now apply (Contains_segment (fun x => "--registry-mirror " ++ x ++ " ")).
  - intros f Hf. do 4 apply Contains_append_l. apply Contains_append_r.
    now apply (Contains_segment (fun x => "--" ++ x ++ " ")).
  - intros x Hx. do 6 apply Contains_append_l. apply Contains_append_r.
    now apply (Contains_segment
                 (fun x => Sprintf "%q" (template.VString x) ++ " ")).
Qed.

(** X16. With the template library as it is, [GenerateDockerOptions]
    never returns an error: for every provisioner and port it returns the
    unit file together with the path of the daemon options file. *)
Theorem GenerateDockerOptions_never_fails
  (Sprintf : string -> template.value -> string) (dockerPort : Z)
  (st : State Cluster) :
  exists text,
    fst (GenerateDockerOptions (T := GoTemplate Sprintf) dockerPort st)
    = (Some {| opt_EngineOptions := text;
               opt_EngineOptionsPath := DaemonOptionsFile (self st) |},
       None)
    /\ text <> "".
Proof.
  rewrite GenerateDockerOptions_GoTemplate. eexists. split; [reflexivity|].
  unfold unit_file_spec, unit_file_head. discriminate.
Qed.

End GenerateMore.

(** ** The further properties on the sample machine *)

Lemma Provision_success_runs_all_steps_witness :
  let st := sample.fresh (sample.bare "aufs") in
  exists p1 p2 p3 p4 p5,
    issued (Provision (trial.host None None) sample.cluster sample.certs
              sample.full) st
    = [SetHostname_call p1 "dev"; makeDockerOptionsDir_call p2;
       setRemoteAuthOptions_call p3; ConfigureAuth_call p4;
       configureSwarm_call p5
         (swarm.set_Env sample.cluster (engine.Env sample.full))
         (AuthOptions p5)].
Proof.
  exact (Provision_success_runs_all_steps (trial.host None None)
           (sample.fresh (sample.bare "aufs")) sample.cluster sample.certs
           sample.full eq_refl).
Defined.

Lemma Provision_fail_fast_witness :
  let host := trial.host (Some "certificates not copied") None in
  let st := sample.fresh (sample.bare "aufs") in
  let log := issued (Provision host sample.cluster sample.certs sample.full) st in
  fst (Provision host sample.cluster sample.certs sample.full st)
  = answer_of host (calls st ++ removelast log) (last log (ssh ""))
  /\ forall i,
      S i < List.length log ->
      answer_of host (calls st ++ firstn i log) (nth i log (ssh "")) = None.
Proof.
  exact (Provision_fail_fast (trial.host (Some "certificates not copied") None)
           (sample.fresh (sample.bare "aufs")) sample.cluster sample.certs
           sample.full (or_intror eq_refl)).
Defined.

Lemma Provision_auth_failure_skips_swarm_witness :
  let host := trial.host (Some "certificates not copied") None in
  let st := sample.fresh (sample.bare "aufs") in
  fst (Provision host sample.cluster sample.certs sample.full st) <> None
  /\ forall p s a,
      ~ In (configureSwarm_call p s a)
          (issued (Provision host sample.cluster sample.certs sample.full) st).
Proof.
  apply (Provision_auth_failure_skips_swarm
           (trial.host (Some "certificates not copied") None)).
  intros before p. discriminate.
Defined.

Lemma Provision_overlay_kept_witness :
  let host := sample.host (sample.answers "") in
  let st := sample.fresh (sample.bare "aufs") in
  exists p rest,
    issued (Provision host sample.cluster sample.certs sample.full) st
    = SetHostname_call p "dev" :: rest
    /\ EngineOptions p = sample.full
    /\ AuthOptions p = sample.certs
    /\ SwarmOptions p = sample.cluster.
Proof.
  exact (Provision_overlay_kept (sample.host (sample.answers ""))
           (sample.fresh (sample.bare "aufs")) sample.cluster sample.certs
           sample.full eq_refl).
Defined.

Lemma Provision_rejected_driver_is_stored_witness :
  let host := sample.host (sample.answers "") in
  let st := sample.fresh (sample.bare "overlay") in
  let p :=
    self (snd (Provision host sample.cluster trial.remote_certs
                 (sample.bare "btrfs") st)) in
  SwarmOptions p = sample.cluster
  /\ AuthOptions p = trial.remote_certs
  /\ EngineOptions p = sample.bare "btrfs"
  /\ Driver p = sample.driver
  /\ DaemonOptionsFile p = "/etc/systemd/system/docker.service".
Proof.
  apply (Provision_rejected_driver_is_stored
           (sample.host (sample.answers ""))
           (sample.fresh (sample.bare "overlay")) sample.cluster
           trial.remote_certs (sample.bare "btrfs")); discriminate.
Defined.

Lemma Provision_auth_sees_remote_options_witness :
  let host := trial.host None None in
  let st := sample.fresh (sample.bare "aufs") in
  let p := set_AuthOptions (sample.machine sample.full) trial.remote_certs in
  exists before p3,
    In (setRemoteAuthOptions_call p3)
      (issued (Provision host sample.cluster sample.certs sample.full) st)
    /\ AuthOptions p = snd (run_setRemoteAuthOptions host before p3)
    /\ p = set_AuthOptions (fst (run_setRemoteAuthOptions host before p3))
             (AuthOptions p).
Proof.
  apply (Provision_auth_sees_remote_options (trial.host None None)).
  do 3 right. left. reflexivity.
Defined.

Lemma Provision_then_render_witness :
  let host := sample.host (sample.answers "") in
  let st := sample.fresh (sample.bare "aufs") in
  let st' :=
    snd (Provision host sample.cluster sample.certs (sample.bare "") st) in
  EngineOptions (self st') = sample.bare "overlay"
  /\ rendered (T := GoTemplate sample.Sprintf) 2376 st'
     = unit_file_spec sample.Sprintf 2376 (AuthOptions (self st'))
         (engine.set_Labels (sample.bare "overlay")
            [provider_label (self st')]).
Proof.
  apply (Provision_then_render (sample.host (sample.answers ""))
           sample.Sprintf 2376 (sample.fresh (sample.bare "aufs"))
           sample.cluster sample.certs (sample.bare "")).
  - repeat split.
  - reflexivity.
Defined.

Lemma upgrade_runs_nothing_to_upgrade_witness :
  let st := sample.fresh sample.full in
  (forall k, k < 3 ->
             fst (upgrade trial.up_to_date (upgrade_runs trial.up_to_date k st))
             = None)
  /\ upgrade_runs trial.up_to_date 3 st
     = {| self := self st;
          calls := calls st ++ repeat (ssh "sudo atomic host upgrade") 3 |}
  /\ count_command "sudo reboot" (calls (upgrade_runs trial.up_to_date 3 st))
     = count_command "sudo reboot" (calls st).
Proof.
  apply (upgrade_runs_nothing_to_upgrade trial.up_to_date 3
           (sample.fresh sample.full)).
  intros k Hk.
  destruct k as [|[|[|k]]];
    [left; reflexivity | right; split; reflexivity
    | right; split; reflexivity | lia].
Defined.

Lemma Package_other_does_nothing_witness :
  let host := sample.host (sample.upgraded "") in
  let st := sample.fresh sample.full in
  Package host "git" pkgaction.Upgrade st = (None, st)
  /\ issued (Package host "git" pkgaction.Upgrade) st = [].
Proof.
  apply (Package_other_does_nothing (sample.host (sample.upgraded ""))
           (sample.fresh sample.full) "git" pkgaction.Upgrade).
  left. discriminate.
Defined.

Lemma Service_action_result_witness :
  let host :=
    sample.host (sample.fails_on "sudo systemctl restart docker"
                   "exit status 5") in
  fst (Service host "docker" serviceaction.Restart (sample.fresh sample.full))
  = Some "exit status 5".
Proof.
  apply (Service_action_result
           (sample.host (sample.fails_on "sudo systemctl restart docker"
                           "exit status 5"))
           (sample.fresh sample.full) "docker" serviceaction.Restart "").
  - intros _. reflexivity.
  - reflexivity.
Defined.
